(** * collegeEvent: the in-memory document store and its compatibility shim

    A shallow embedding of

      - [src/config/memoryDb.js]     the store ([memoryDb], [memoryDbUtils]),
      - [src/config/db.js]           the backend selector ([usingMemoryDb],
                                     [connectDB]),
      - [src/controllers/eventController.js]
                                     the mock [Event] / [Registration] models
                                     used when the store is the backend,

    followed by the properties of the specification, each proved or refuted
    on the embedding. *)

From Stdlib Require Import ZArith String List Bool Lia Sorted.
From Stdlib Require Import Floats.PrimFloat.
From stdpp Require Import base option list gmap strings pretty.

Set Warnings "-register-all,-inexact-float".

Local Open Scope string_scope.
Local Open Scope Z_scope.

(* ===================================================================== *)
(** ** JavaScript values *)
(* ===================================================================== *)

(** Heap addresses.  Objects, arrays and [Date]s are compared by identity
    in JavaScript, so every such value carries the address it was allocated
    at. *)
Definition loc := nat.

(** The values that flow through the store: primitives, [Date] objects
    (identity and time value in milliseconds), plain objects (identity and
    own enumerable properties in enumeration order) and arrays.  They are
    data: what a JSON body, a query string or a literal of the program
    holds.  Functions and the built-in objects of the engine are not among
    them. *)
Inductive value : Type :=
  | VUndefined
  | VNull
  | VBool (b : bool)
  | VNum (x : float)
  | VStr (s : string)
  | VDate (l : loc) (ms : Z)
  | VObject (l : loc) (props : list (string * value))
  | VArray (l : loc) (elems : list value).

(** The own enumerable properties of a plain object, in enumeration order.
    A list is read the way an object literal is: an entry defined later
    overrides an earlier one with the same key.  Every object the program
    builds has pairwise distinct keys. *)
Abbreviation obj := (list (string * value)).

Fixpoint obj_lookup (k : string) (o : obj) : option value :=
  match o with
  | [] => None
  | (k', v) :: o' =>
      match obj_lookup k o' with
      | Some v' => Some v'
      | None => if String.eqb k' k then Some v else None
      end
  end.

(** [o[k]]: a missing property reads as [undefined]. *)
Definition obj_get (k : string) (o : obj) : value :=
  default VUndefined (obj_lookup k o).

Definition has_key (k : string) (o : obj) : bool :=
  existsb (fun kv => String.eqb (fst kv) k) o.

(** Records, queries and [memoryDb] itself are plain objects: a property
    they do not own is looked up in [Object.prototype], which holds the
    built-in methods below, [constructor] (that is [Object]) and the
    accessor [__proto__] (which yields [Object.prototype] itself). *)
Definition Object_prototype : list string :=
  ["constructor"; "__defineGetter__"; "__defineSetter__"; "hasOwnProperty";
   "__lookupGetter__"; "__lookupSetter__"; "isPrototypeOf";
   "propertyIsEnumerable"; "toString"; "valueOf"; "__proto__";
   "toLocaleString"].

Definition inherited (k : string) : bool :=
  existsb (String.eqb k) Object_prototype.
Global Arguments inherited : simpl never.

(** Defining property [k]: an existing key keeps its position and takes the
    new value, a new key is appended. *)
Definition obj_set (k : string) (v : value) (o : obj) : obj :=
  if has_key k o
  then map (fun kv => if String.eqb (fst kv) k then (fst kv, v) else kv) o
  else o ++ [(k, v)].

(** [{ ...target, ...source }] continued into an object under construction:
    the properties of [source] are defined on [target] in order. *)
Definition spread (target source : obj) : obj :=
  fold_left (fun acc kv => obj_set (fst kv) (snd kv) acc) source target.

(** Index keys ["0"], ["1"], ... of an array or a string of length [n]. *)
Definition index_keys (n : nat) : list string :=
  map (fun i : nat => pretty i) (seq 0 n).

Definition string_chars (s : string) : list value :=
  map (fun c => VStr (String c EmptyString)) (list_ascii_of_string s).

(** The own enumerable properties of any value: what [Object.keys] lists and
    what an object spread copies.  Primitives other than strings, and
    [Date]s, have none. *)
Definition own_props (v : value) : obj :=
  match v with
  | VObject _ props => props
  | VArray _ elems => zip (index_keys (length elems)) elems
  | VStr s => zip (index_keys (String.length s)) (string_chars s)
  | _ => []
  end.

(** Truthiness: [undefined], [null], [false], [0], [-0], [NaN] and [""] are
    falsy, everything else (every object, array and [Date]) is truthy. *)
Definition is_nan (x : float) : bool := negb (PrimFloat.eqb x x).

Definition truthy (v : value) : bool :=
  match v with
  | VUndefined | VNull => false
  | VBool b => b
  | VNum x => negb (PrimFloat.eqb x 0%float || is_nan x)
  | VStr s => negb (String.eqb s "")
  | VDate _ _ | VObject _ _ | VArray _ _ => true
  end.

(** [a === b]: primitives by value (IEEE equality on numbers, so [NaN] is
    not equal to itself), objects, arrays and [Date]s by identity. *)
Definition strict_eq (a b : value) : bool :=
  match a, b with
  | VUndefined, VUndefined => true
  | VNull, VNull => true
  | VBool x, VBool y => Bool.eqb x y
  | VNum x, VNum y => PrimFloat.eqb x y
  | VStr x, VStr y => String.eqb x y
  | VDate l _, VDate l' _ => Nat.eqb l l'
  | VObject l _, VObject l' _ => Nat.eqb l l'
  | VArray l _, VArray l' _ => Nat.eqb l l'
  | _, _ => false
  end.

(** [o[k] === v] for a plain object [o] and a value [v]: an own property
    is compared by [===]; a property inherited from [Object.prototype] is a
    built-in, equal to no value; a missing one reads as [undefined]. *)
Definition field_is (o : obj) (k : string) (v : value) : bool :=
  match obj_lookup k o with
  | Some own => strict_eq own v
  | None => negb (inherited k) && strict_eq VUndefined v
  end.

(** What a built-in inherited from [Object.prototype] converts to when it
    is compared: the source text of the function, and ["[object Object]"]
    for [Object.prototype] itself. *)
Definition builtin_text (k : string) : string :=
  if String.eqb k "__proto__" then "[object Object]"
  else if String.eqb k "constructor"
  then "function Object() { [native code] }"
  else ("function " ++ k ++ "() { [native code] }")%string.

(** [o[k]] as an operand of [<]: the own property; for an inherited one the
    primitive the built-in converts to; [undefined] for a missing one. *)
Definition operand (k : string) (o : obj) : value :=
  match obj_lookup k o with
  | Some own => own
  | None => if inherited k then VStr (builtin_text k) else VUndefined
  end.

(** [<] converts its operands to primitives first, which throws a
    [TypeError] for an object that offers no way to convert it: a plain
    object with an own [toString] property (the values of the model are
    not callable, and the inherited [valueOf] returns the object itself),
    and an array that holds such an object, since an array converts by
    joining the strings of its elements. *)
Fixpoint unconvertible (v : value) : bool :=
  match v with
  | VObject _ props => has_key "toString" props
  | VArray _ elems => existsb unconvertible elems
  | _ => false
  end.

(** Do the sort fields of all the records convert to primitives? *)
Definition sortable (k : string) (xs : list obj) : bool :=
  forallb (fun x => negb (unconvertible (operand k x))) xs.

(* ===================================================================== *)
(** ** Exceptions *)
(* ===================================================================== *)

Inductive error : Type :=
  | TypeError (msg : string).

Inductive result (A : Type) : Type :=
  | Ok (a : A)
  | Throw (e : error).
Arguments Ok {A} a.
Arguments Throw {A} e.

Global Instance result_ret : MRet result := fun A a => Ok a.
Global Instance result_bind : MBind result := fun A B f m =>
  match m with
  | Ok a => f a
  | Throw e => Throw e
  end.
Global Instance result_fmap : FMap result := fun A B f m =>
  match m with
  | Ok a => Ok (f a)
  | Throw e => Throw e
  end.

(** [Object.keys(v)]: throws on [undefined] and [null]. *)
Definition Object_keys (v : value) : result (list string) :=
  match v with
  | VUndefined | VNull =>
      Throw (TypeError "Cannot convert undefined or null to object")
  | _ => Ok (map fst (own_props v))
  end.

(** [v.k] for the names the program reads this way ([_id], [$or], [date],
    [$gte], [$lte], [id]), which no prototype holds: the own property, or
    [undefined]; throws on [undefined] and [null]. *)
Definition get_prop (v : value) (k : string) : result value :=
  match v with
  | VUndefined | VNull =>
      Throw (TypeError "Cannot read properties of undefined or null")
  | _ => Ok (obj_get k (own_props v))
  end.

(** [xs.every(f)] and [xs.some(f)] with a callback that may throw: the
    callback runs on the elements in order and stops at the first element
    that decides the answer. *)
Fixpoint every {A} (f : A -> result bool) (xs : list A) : result bool :=
  match xs with
  | [] => Ok true
  | x :: xs' => b ← f x; if b : bool then every f xs' else Ok false
  end.

Fixpoint some {A} (f : A -> result bool) (xs : list A) : result bool :=
  match xs with
  | [] => Ok false
  | x :: xs' => b ← f x; if b : bool then Ok true else some f xs'
  end.

(** [xs.filter(f)] with a callback that may throw. *)
Fixpoint filter_array {A} (f : A -> result bool) (xs : list A)
  : result (list A) :=
  match xs with
  | [] => Ok []
  | x :: xs' =>
      b ← f x;
      rest ← filter_array f xs';
      Ok (if b : bool then x :: rest else rest)
  end.

(** [xs.findIndex(p)]; [None] stands for [-1]. *)
Fixpoint findIndex {A} (p : A -> bool) (xs : list A) : option nat :=
  match xs with
  | [] => None
  | x :: xs' => if p x then Some 0%nat else S <$> findIndex p xs'
  end.

(** [xs.slice(start, end)] on integer arguments: a negative index counts
    from the end, and both are clamped to the array. *)
Definition clamp_index (len i : Z) : Z :=
  if i <? 0 then Z.max (len + i) 0 else Z.min i len.

Definition slice {A} (start stop : Z) (xs : list A) : list A :=
  let len := Z.of_nat (length xs) in
  let k := clamp_index len start in
  let final := clamp_index len stop in
  take (Z.to_nat (final - k)) (drop (Z.to_nat k) xs).

(* ===================================================================== *)
(** ** The process state and its monad *)
(* ===================================================================== *)

(** What the program reads and writes: the module-level [memoryDb] object
    (collection name to array of records), the allocator of object
    identities, the system clock ([clock n] is what the [n]-th reading of
    the clock returns, and [ticks] counts the readings taken so far) and the
    console. *)
Record world : Type := World {
  memoryDb : gmap string (list obj);
  next_loc : loc;
  ticks : nat;
  clock : nat -> Z;
  console : list string
}.

(** A computation returns or throws, and leaves a world behind either
    way. *)
Definition M (A : Type) : Type := world -> result A * world.

Global Instance M_ret : MRet M := fun A a w => (Ok a, w).
Global Instance M_bind : MBind M := fun A B f m w =>
  match m w with
  | (Ok a, w') => f a w'
  | (Throw e, w') => (Throw e, w')
  end.

(** A computation of [result] run inside [M]. *)
Definition lift {A} (r : result A) : M A := fun w => (r, w).

(** [{}] / [[]] / [new Date(..)]: a fresh identity. *)
Definition alloc : M loc := fun w =>
  (Ok (next_loc w),
   World (memoryDb w) (S (next_loc w)) (ticks w) (clock w) (console w)).

(** [Date.now()]: one reading of the clock, in milliseconds. *)
Definition Date_now : M Z := fun w =>
  (Ok (clock w (ticks w)),
   World (memoryDb w) (next_loc w) (S (ticks w)) (clock w) (console w)).

(** [new Date()] *)
Definition new_Date : M value :=
  ms ← Date_now; l ← alloc; mret (VDate l ms).

(** [new Date(ms)] *)
Definition new_Date_at (ms : Z) : M value :=
  l ← alloc; mret (VDate l ms).

(** An object literal [{ k1: v1, ... }]. *)
Definition new_object (props : obj) : M value :=
  l ← alloc; mret (VObject l props).

(** An array literal. *)
Definition new_array (elems : list value) : M value :=
  l ← alloc; mret (VArray l elems).

(** [console.log(msg, ...)] / [console.error(msg, ...)]: the message is
    recorded, the values printed after it are not. *)
Definition console_log (msg : string) : M unit := fun w =>
  (Ok tt,
   World (memoryDb w) (next_loc w) (ticks w) (clock w) (console w ++ [msg])).

(** What [memoryDb[collection] || []] evaluates to: the array stored under
    the name; for a name [memoryDb] does not own, the built-in it inherits
    from [Object.prototype] under that name, which is truthy and no array;
    a fresh empty array for any other name. *)
Inductive stored : Type :=
  | Records (items : list obj)
  | Builtin (name : string).

(** [memoryDb[collection] || []] *)
Definition collection_or_empty (collection : string) : M stored := fun w =>
  (Ok (match memoryDb w !! collection with
       | Some items => Records items
       | None =>
           if inherited collection then Builtin collection else Records []
       end), w).

(** The receiver of a call [s.method(...)] of an array method: a built-in
    has no such method, and the call throws. *)
Definition array_of (method : string) (s : stored) : M (list obj) :=
  match s with
  | Records items => mret items
  | Builtin _ =>
      lift (Throw (TypeError (method ++ " is not a function")%string))
  end.

(** The records of an array; a built-in holds none. *)
Definition records (s : stored) : list obj :=
  match s with
  | Records items => items
  | Builtin _ => []
  end.

(** Is [memoryDb[collection]] an array already? *)
Definition collection_exists (collection : string) : M bool := fun w =>
  (Ok (bool_decide (is_Some (memoryDb w !! collection))), w).

(** [memoryDb[collection] = items], also the effect of mutating the array
    held there in place. *)
Definition store_collection (collection : string) (items : list obj) : M unit :=
  fun w =>
  (Ok tt,
   World (<[collection := items]> (memoryDb w))
         (next_loc w) (ticks w) (clock w) (console w)).

(** The [memoryDb] object as the module creates it. *)
Definition memoryDb_init : gmap string (list obj) :=
  list_to_map
    [("events", []); ("users", []); ("registrations", []); ("reviews", []);
     ("sessions", []); ("feedbacks", []); ("notifications", []);
     ("exhibitors", [])].

(** The state of a process that has loaded the module, with the given
    clock. *)
Definition boot (clk : nat -> Z) : world :=
  World memoryDb_init 0%nat 0%nat clk [].

(* ===================================================================== *)
(** ** [memoryDbUtils] (src/config/memoryDb.js) *)
(* ===================================================================== *)

(** [item => item._id === id] *)
Definition id_is (id : value) (item : obj) : bool :=
  strict_eq (obj_get "_id" item) id.

Module memoryDbUtils.

(** The properties of the exported [memoryDbUtils] object. *)
Definition exports : list string :=
  ["getAll"; "findById"; "find"; "create"; "update"; "delete"].

Definition getAll (collection : string) : M stored :=
  collection_or_empty collection.

(** [null] is [None]. *)
Definition findById (collection : string) (id : value) : M (option obj) :=
  items ← collection_or_empty collection;
  items ← array_of "find" items;
  mret (List.find (id_is id) items).

(** One condition of a [$or] list against an item:
    [Object.keys(condition).every(condKey =>
       item[condKey] === condition[condKey])]. *)
Definition condition_holds (item : obj) (condition : value) : result bool :=
  keys ← Object_keys condition;
  every (fun condKey =>
           Ok (field_is item condKey (obj_get condKey (own_props condition))))
        keys.

(** The callback of [Object.keys(query).every(key => ...)]. *)
Definition key_holds (item : obj) (query : value) (key : string)
  : result bool :=
  if String.eqb key "$or" then
    match obj_get key (own_props query) with
    | VArray _ conditions => some (condition_holds item) conditions
    | VUndefined | VNull =>
        Throw (TypeError "Cannot read properties of undefined or null")
    | _ => Throw (TypeError "query[key].some is not a function")
    end
  else Ok (field_is item key (obj_get key (own_props query))).

(** The callback of [items.filter(item => ...)]: does [item] satisfy
    [query]? *)
Definition matches (query : value) (item : obj) : result bool :=
  keys ← Object_keys query;
  every (key_holds item query) keys.

Definition find (collection : string) (query : value) : M stored :=
  items ← collection_or_empty collection;
  if negb (truthy query) || (length (own_props query) =? 0)%nat
  then mret items
  else
    items ← array_of "filter" items;
    found ← lift (filter_array (matches query) items);
    mret (Records found).

Definition create (collection : string) (data : value) : M obj :=
  now ← Date_now;
  let id := pretty now in
  createdAt ← new_Date;
  updatedAt ← new_Date;
  let item :=
    obj_set "updatedAt" updatedAt
      (obj_set "createdAt" createdAt
         (spread [("_id", VStr id)] (own_props data))) in
  (* [if (!memoryDb[collection]) memoryDb[collection] = []]: an inherited
     built-in is truthy, and is what [push] is then called on *)
  items ← collection_or_empty collection;
  items ← array_of "push" items;
  store_collection collection (items ++ [item]);;
  mret item.

Definition update (collection : string) (id data : value)
  : M (option obj) :=
  items ← collection_or_empty collection;
  items ← array_of "findIndex" items;
  match findIndex (id_is id) items with
  | Some index =>
      updatedAt ← new_Date;
      let old := default [] (items !! index) in
      let item :=
        obj_set "updatedAt" updatedAt
          (spread (spread [] old) (own_props data)) in
      store_collection collection (<[index := item]> items);;
      mret (Some item)
  | None => mret None
  end.

Definition delete (collection : string) (id : value) : M (option obj) :=
  items ← collection_or_empty collection;
  items ← array_of "findIndex" items;
  match findIndex (id_is id) items with
  | Some index =>
      store_collection collection (base.delete index items);;
      mret (items !! index)
  | None => mret None
  end.

End memoryDbUtils.

(* ===================================================================== *)
(** ** The backend selector (src/config/db.js) *)
(* ===================================================================== *)

(** What [db.js] reads from its surroundings: [env.nodeEnv] and
    [env.mongoUri] of [env.js], [process.env.MONGO_URI] (a string or
    [undefined]), and whether [mongoose.connect] resolves.  A rejection, or
    an exception raised while its arguments are built, both land in the
    [catch] block. *)
Record environment : Type := Environment {
  nodeEnv : string;
  MONGO_URI : value;
  mongoUri : string;
  connect_resolves : bool
}.

(** [const useMemoryDb = env.nodeEnv === 'development' &&
    !process.env.MONGO_URI;] *)
Definition useMemoryDb (e : environment) : bool :=
  String.eqb (nodeEnv e) "development" && negb (truthy (MONGO_URI e)).

(** [export const usingMemoryDb = useMemoryDb;] *)
Definition usingMemoryDb (e : environment) : bool := useMemoryDb e.

(** The statements the module runs when it is loaded. *)
Definition db_module_load (e : environment) : M unit :=
  if useMemoryDb e
  then console_log "Using in-memory database for development"
  else mret tt.

Definition week_ms : Z := 7 * 24 * 60 * 60 * 1000.

Definition tech_conference (date : value) : obj :=
  [("title", VStr "Tech Conference 2025");
   ("description", VStr "Annual technology conference with industry leaders");
   ("date", date);
   ("location", VStr "Convention Center");
   ("price", VNum 99.99%float);
   ("organizer", VStr "Organizer Inc.");
   ("status", VStr "approved")].

Definition music_festival (date : value) : obj :=
  [("title", VStr "Music Festival");
   ("description", VStr "Three-day music festival with top artists");
   ("date", date);
   ("location", VStr "Central Park");
   ("price", VNum 149.99%float);
   ("organizer", VStr "Festival Corp");
   ("status", VStr "approved")].

(** [memoryDbUtils.create('events', { ..., date: new Date(Date.now() +
    offset), ... })] *)
Definition create_sample (fields : value -> obj) (offset : Z) : M obj :=
  l ← alloc;
  now ← Date_now;
  date ← new_Date_at (now + offset);
  memoryDbUtils.create "events" (VObject l (fields date)).

(** [if (typeof memoryDbUtils !== 'undefined' &&
         typeof memoryDbUtils.memoryDb !== 'undefined')
       memoryDbUtils.memoryDb.events = [];]
    [memoryDbUtils] is the object exported by [memoryDb.js]. *)
Definition clear_existing_data : M unit :=
  if bool_decide ("memoryDb" ∈ memoryDbUtils.exports)
  then store_collection "events" []
  else mret tt.

(** [memoryDbUtils], the module-level variable, holds the store's utilities
    whenever [useMemoryDb] is true, so the test [if (memoryDbUtils)] of the
    first branch always passes. *)
Definition connectDB (e : environment) : M unit :=
  if useMemoryDb e then
    create_sample tech_conference week_ms;;
    create_sample music_festival (2 * week_ms);;
    console_log "In-memory database initialized with sample data"
  else if connect_resolves e then
    console_log "MongoDB connected";;
    if String.eqb (nodeEnv e) "development" then
      clear_existing_data;;
      create_sample tech_conference week_ms;;
      console_log "Created sample event 1:";;
      create_sample music_festival (2 * week_ms);;
      console_log "Created sample event 2:";;
      q ← new_object [];
      memoryDbUtils.find "events" q;;
      console_log "All events in memory DB:";;
      console_log "Sample data created for development mode"
    else mret tt
  else
    console_log "MongoDB connection error:";;
    console_log "Falling back to in-memory database for development";;
    clear_existing_data;;
    create_sample tech_conference week_ms;;
    console_log "Created sample event 1:";;
    create_sample music_festival (2 * week_ms);;
    console_log "Created sample event 2:";;
    q ← new_object [];
    memoryDbUtils.find "events" q;;
    console_log "All events in memory DB:";;
    console_log "In-memory database initialized with sample data".

(* ===================================================================== *)
(** ** The mock models (src/controllers/eventController.js) *)
(* ===================================================================== *)

(** The [options] argument of [Event.find]: [sort] is the first property of
    the sort object (field name and direction value), [skip] and [limit]
    are integers; [None] is [undefined]. *)
Record find_options : Type := FindOptions {
  sort : option (string * value);
  skip : option Z;
  limit : option Z
}.

Section Sorting.

(** [a < b] on two operands that convert to primitives (JavaScript's
    relational comparison).  Nothing below depends on how it orders
    values. *)
Variable js_lt : value -> value -> bool.

(** The comparator handed to [events.sort], on records whose sort fields
    convert to primitives. *)
Definition compare_by (sortField : string) (asc : bool) (a b : obj) : Z :=
  if js_lt (operand sortField a) (operand sortField b)
  then (if asc then -1 else 1)
  else if js_lt (operand sortField b) (operand sortField a)
  then (if asc then 1 else -1)
  else 0.

(** [xs.sort(cmp)], a stable sort.  For a consistent comparator - one that
    orders the elements by a strict weak order - every stable sort gives
    the same array, which is the one computed here; for any other
    comparator the order is the engine's choice, and only what holds of
    every permutation is to be read off this definition. *)
Fixpoint insert_sorted {A} (cmp : A -> A -> Z) (x : A) (xs : list A)
  : list A :=
  match xs with
  | [] => [x]
  | y :: xs' =>
      if cmp x y <=? 0 then x :: y :: xs' else y :: insert_sorted cmp x xs'
  end.

Definition array_sort {A} (cmp : A -> A -> Z) (xs : list A) : list A :=
  foldr (insert_sorted cmp) [] xs.

(** [xs.sort((a, b) => ... a[sortField] < b[sortField] ...)].  As soon as
    the array holds two records the comparator is called on each of them,
    and throws if the sort field of one does not convert to a primitive;
    the array is written back only when the sort completes. *)
Definition sort_by (sortField : string) (asc : bool) (xs : list obj)
  : result (list obj) :=
  if (length xs <? 2)%nat || sortable sortField xs
  then Ok (array_sort (compare_by sortField asc) xs)
  else Throw (TypeError "Cannot convert object to primitive value").

End Sorting.

Module Event.

Definition create (data : value) : M obj :=
  memoryDbUtils.create "events" data.

(** The third argument, [options], is not read. *)
Definition findOneAndUpdate (filter update : value) : M (option obj) :=
  id ← lift (get_prop filter "_id");
  item ← memoryDbUtils.findById "events" id;
  match item with
  | Some _ => memoryDbUtils.update "events" id update
  | None => mret None
  end.

Definition findOneAndDelete (filter : value) : M (option obj) :=
  id ← lift (get_prop filter "_id");
  memoryDbUtils.delete "events" id.

(** The query [Event.find] extracts from its filter: [$or] when truthy,
    and a fresh [date] object holding the truthy ones of [$gte] and
    [$lte] when one of them is truthy. *)
Definition extract_query (filter : value) : M value :=
  l ← alloc;
  or ← lift (get_prop filter "$or");
  let query := if truthy or then [("$or", or)] else [] in
  date ← lift (get_prop filter "date");
  gte ← (if truthy date then lift (get_prop date "$gte") else mret VUndefined);
  lte ← (if truthy date then lift (get_prop date "$lte") else mret VUndefined);
  if truthy date && (truthy gte || truthy lte) then
    ld ← alloc;
    let range := if truthy gte then [("$gte", gte)] else [] in
    let range := if truthy lte then obj_set "$lte" lte range else range in
    mret (VObject l (obj_set "date" (VObject ld range) query))
  else mret (VObject l query).

(** [Event.find(filter, projection, options)]; [projection] is not read. *)
Definition find (js_lt : value -> value -> bool)
    (filter : value) (options : option find_options) : M (list obj) :=
  query ← extract_query filter;
  found ← memoryDbUtils.find "events" query;
  (* [memoryDb.events] is an array whenever it is there: [events] is no
     property of [Object.prototype] *)
  let events := records found in
  events ←
    match options ≫= sort with
    | Some (sortField, direction) =>
        let asc := negb (strict_eq direction (VNum (-1)%float)) in
        sorted ← lift (sort_by js_lt sortField asc events);
        (* [sort] works in place: with an empty query [events] is the
           stored array itself, which is reordered too *)
        stored ← collection_exists "events";
        (if stored && (length (own_props query) =? 0)%nat
         then store_collection "events" sorted else mret tt);;
        mret sorted
    | None => mret events
    end;
  match options ≫= skip, options ≫= limit with
  | Some skip, Some limit => mret (slice skip (skip + limit) events)
  | _, _ => mret events
  end.

Definition findById (id : value) : M (option obj) :=
  memoryDbUtils.findById "events" id.

Definition countDocuments (filter : value) : M nat :=
  events ← memoryDbUtils.find "events" filter;
  mret (length (records events)).

End Event.

Module Registration.

Definition countDocuments (filter : value) : M nat :=
  registrations ← memoryDbUtils.find "registrations" filter;
  mret (length (records registrations)).

End Registration.

(** The filter [listEvents] builds from the request's query string: [q],
    [category], [status] and [organizer] are strings or [undefined];
    [dateFrom] and [dateTo], when given, are the time values their strings
    parse to. *)
Definition listEvents_filter (q category status organizer : value)
    (dateFrom dateTo : option Z) : M value :=
  l ← alloc;
  filter ←
    (if truthy q then
       l1 ← alloc; l2 ← alloc;
       title ← new_object [("$regex", q); ("$options", VStr "i")];
       l3 ← alloc;
       description ← new_object [("$regex", q); ("$options", VStr "i")];
       mret [("$or", VArray l1 [VObject l2 [("title", title)];
                                VObject l3 [("description", description)]])]
     else mret []);
  let filter :=
    if truthy category then obj_set "category" category filter else filter in
  let filter :=
    if truthy status then obj_set "status" status filter else filter in
  let filter :=
    if truthy organizer then obj_set "organizer" organizer filter
    else filter in
  match dateFrom, dateTo with
  | None, None => mret (VObject l filter)
  | _, _ =>
      ld ← alloc;
      gte ← match dateFrom with
            | Some ms => d ← new_Date_at ms; mret [("$gte", d)]
            | None => mret []
            end;
      range ← match dateTo with
              | Some ms => d ← new_Date_at ms; mret (obj_set "$lte" d gte)
              | None => mret gte
              end;
      mret (VObject l (obj_set "date" (VObject ld range) filter))
  end.

(* ===================================================================== *)
(** ** The request handlers (src/controllers/eventController.js) *)
(* ===================================================================== *)

(** The handlers as they run when the store is the backend, that is with
    the mock models above. *)

(** [try { body } catch (err) { handler }] *)
Definition try_catch {A} (body : M A) (handler : error -> M A) : M A :=
  fun w =>
  match body w with
  | (Ok a, w') => (Ok a, w')
  | (Throw e, w') => handler e w'
  end.

(** A call whose promise is not awaited: its effects happen, its result or
    rejection is dropped. *)
Definition detached {A} (m : M A) : M unit := fun w => (Ok tt, snd (m w)).

(** [err.message] *)
Definition message (e : error) : string :=
  match e with
  | TypeError msg => msg
  end.

(** [xs.map(f)] with a callback that allocates. *)
Fixpoint map_M {A B} (f : A -> M B) (xs : list A) : M (list B) :=
  match xs with
  | [] => mret []
  | x :: xs' => y ← f x; ys ← map_M f xs'; mret (y :: ys)
  end.

(** What the handlers read from [req]: [req.body], the [filename] of
    [req.file] when a file was uploaded, [req.user] and [req.params.id]. *)
Record request : Type := Request {
  body : value;
  file : option string;
  user : value;
  params_id : value
}.

(** [pagination] in the answer of [listEvents]; [totalPages] is [None]
    when [Math.ceil(total / limit)] is not a finite number. *)
Record pagination : Type := Pagination {
  currentPage : Z;
  totalPages : option Z;
  totalEvents : nat;
  hasNext : bool;
  hasPrev : bool
}.

(** What a handler sends: [res.status(s).json({ event })],
    [res.status(s).json({ message })] or
    [res.json({ events, pagination })]; [res.json] alone sends status
    200. *)
Inductive reply : Type :=
  | EventReply (status : Z) (event : obj)
  | MessageReply (status : Z) (text : string)
  | ListReply (status : Z) (listed : list obj) (pages : pagination).

(** [req.file ? `/uploads/${req.file.filename}` : undefined] *)
Definition posterUrl_of (req : request) : value :=
  match file req with
  | Some filename => VStr ("/uploads/" ++ filename)%string
  | None => VUndefined
  end.

(** [res.status(500).json({ message: err.message })] *)
Definition server_error (err : error) : M reply :=
  mret (MessageReply 500 (message err)).

Definition createEvent (req : request) : M reply :=
  try_catch
    (let posterUrl := posterUrl_of req in
     l ← alloc;
     organizer ← lift (get_prop (user req) "id");
     event ← Event.create
               (VObject l
                  (obj_set "posterUrl" posterUrl
                     (obj_set "organizer" organizer
                        (spread [] (own_props (body req))))));
     mret (EventReply 201 event))
    server_error.

Definition updateEvent (req : request) : M reply :=
  try_catch
    (let posterUrl := posterUrl_of req in
     lu ← alloc;
     let update := spread [] (own_props (body req)) in
     let update :=
       if truthy posterUrl then obj_set "posterUrl" posterUrl update
       else update in
     lf ← alloc;
     organizer ← lift (get_prop (user req) "id");
     alloc;;
     event ← Event.findOneAndUpdate
               (VObject lf [("_id", params_id req); ("organizer", organizer)])
               (VObject lu update);
     match event with
     | None => mret (MessageReply 404 "Event not found")
     | Some event => mret (EventReply 200 event)
     end)
    server_error.

Definition deleteEvent (req : request) : M reply :=
  try_catch
    (lf ← alloc;
     organizer ← lift (get_prop (user req) "id");
     event ← Event.findOneAndDelete
               (VObject lf [("_id", params_id req); ("organizer", organizer)]);
     match event with
     | None => mret (MessageReply 404 "Event not found")
     | Some _ => mret (MessageReply 200 "Deleted")
     end)
    server_error.

(** [req.query] as [listEvents] uses it, after the defaults of the
    destructuring: the search and filter strings (or [undefined]), the time
    values [dateFrom] and [dateTo] parse to, [sortBy] and [sortOrder], and
    the integers [parseInt(page)] and [parseInt(limit)]. *)
Module query.
Record t : Type := Make {
  q : value;
  category : value;
  status : value;
  organizer : value;
  dateFrom : option Z;
  dateTo : option Z;
  sortBy : string;
  sortOrder : string;
  page : Z;
  limit : Z
}.
End query.

(** [Math.ceil(total / limit)] on integers. *)
Definition ceil_quotient (total limit : Z) : option Z :=
  if limit =? 0 then None else Some (- ((- total) / limit)).

(** [event => ({ ...event, organizer: { name: event.organizer ||
    'Organizer' } })] *)
Definition with_organizer_name (event : obj) : M obj :=
  l ← alloc;
  let organizer := obj_get "organizer" event in
  let name := if truthy organizer then organizer else VStr "Organizer" in
  mret (obj_set "organizer" (VObject l [("name", name)]) (spread [] event)).

(** [Event.find(filter)] returns a promise, which has no [populate]: the
    test [!Event.find(filter).populate] passes, at the price of a first,
    unawaited call, and the branch that filters, sorts and paginates by
    hand is taken.  [allEvents.sort] works in place: when [Event.find]
    extracted no condition - which for the filter built here means no
    search text and no date bound - [allEvents] is the stored array
    itself. *)
Definition listEvents (js_lt : value -> value -> bool) (rq : query.t)
  : M reply :=
  try_catch
    (console_log "listEvents called with query:";;
     filter ← listEvents_filter (query.q rq) (query.category rq)
                (query.status rq) (query.organizer rq)
                (query.dateFrom rq) (query.dateTo rq);
     console_log "Filter:";;
     alloc;;
     let skip := (query.page rq - 1) * query.limit rq in
     console_log "Sort:";;
     detached (Event.find js_lt filter None);;
     allEvents ← Event.find js_lt filter None;
     allEvents ←
       (if negb (String.eqb (query.sortBy rq) "") then
          sorted ← lift (sort_by js_lt (query.sortBy rq)
                           (negb (String.eqb (query.sortOrder rq) "desc"))
                           allEvents);
          stored ← collection_exists "events";
          (if stored &&
              (negb (truthy (query.q rq)) &&
               bool_decide (query.dateFrom rq = None) &&
               bool_decide (query.dateTo rq = None))
           then store_collection "events" sorted else mret tt);;
          mret sorted
        else mret allEvents);
     let total := length allEvents in
     listed ← map_M with_organizer_name
                (slice skip (skip + query.limit rq) allEvents);
     console_log "Found events:";;
     console_log "Total count:";;
     mret (ListReply 200 listed
             (Pagination (query.page rq)
                (ceil_quotient (Z.of_nat total) (query.limit rq))
                total
                (skip + query.limit rq <? Z.of_nat total)
                (1 <? query.page rq))))
    (fun err =>
       console_log "Error in listEvents:";;
       server_error err).

(* ===================================================================== *)
(** ** Scenarios *)
(* ===================================================================== *)

(** The [events] collection of a world. *)
Definition events (w : world) : list obj :=
  default [] (memoryDb w !! "events").

(** A clock that advances by one millisecond at every reading, and one
    that stands still. *)
Definition ticking_clock (start : Z) : nat -> Z :=
  fun n => start + Z.of_nat n.
Definition frozen_clock (t : Z) : nat -> Z := fun _ => t.

(** A production process whose database cannot be reached. *)
Definition unreachable_production : environment :=
  Environment "production" (VStr "mongodb://db.example/college")
              "mongodb://db.example/college" false.

(** A development process without [MONGO_URI]: the store is the backend. *)
Definition development : environment :=
  Environment "development" VUndefined "" false.

(** The world after [connectDB] in [development], with a ticking clock. *)
Definition seeded : world :=
  snd (connectDB development (boot (ticking_clock 1700000000000))).

(** [Event.create({ title: 'Orientation', organizer: 'alice' })] in a fresh
    process, at time 1000. *)
Definition alice_event : M obj :=
  data ← new_object [("title", VStr "Orientation");
                     ("organizer", VStr "alice")];
  Event.create data.

(** A filter [{ _id: id, organizer: user }], as [updateEvent] and
    [deleteEvent] build it. *)
Definition owned_by (id : value) (user : string) : M value :=
  new_object [("_id", id); ("organizer", VStr user)].

(** [bob] updates, then deletes, the event [alice] created. *)
Definition bob_updates_alice_event : M (option obj) :=
  alice_event;;
  filter ← owned_by (VStr "1000") "bob";
  update ← new_object [("title", VStr "Hijacked")];
  Event.findOneAndUpdate filter update.

Definition bob_deletes_alice_event : M (option obj) :=
  alice_event;;
  filter ← owned_by (VStr "1000") "bob";
  Event.findOneAndDelete filter.

(** A computation raises when it ends in an exception. *)
Definition raises {A} (r : result A) : Prop := exists e, r = Throw e.

(** [memoryDb[collection] || []] is an array: [memoryDb] holds one under
    the name, or the name is none of [Object.prototype]'s. *)
Definition array_at (collection : string) (w : world) : Prop :=
  is_Some (memoryDb w !! collection) \/ inherited collection = false.

(** The filter [{ status: { $ne: 'cancelled' } }] ([getEvent] counts
    registrations with one like it). *)
Definition not_cancelled : value :=
  VObject 100%nat [("status", VObject 101%nat [("$ne", VStr "cancelled")])].

(** The first sample event as [seeded] stores it. *)
Definition stored_tech_conference : obj := default [] (events seeded !! 0%nat).

(** [GET /events?dateFrom=..&dateTo=..] and [GET /events?q=..] on the
    in-memory branch of [listEvents]: the filter is built and handed to
    [Event.find]. *)
Definition list_between (js_lt : value -> value -> bool) (dateFrom dateTo : Z)
  : M (list obj) :=
  filter ← listEvents_filter VUndefined VUndefined VUndefined VUndefined
             (Some dateFrom) (Some dateTo);
  Event.find js_lt filter None.

Definition search (js_lt : value -> value -> bool) (q : string)
  : M (list obj) :=
  filter ← listEvents_filter (VStr q) VUndefined VUndefined VUndefined
             None None;
  Event.find js_lt filter None.

(** The time value of a [Date]. *)
Definition date_ms (v : value) : option Z :=
  match v with
  | VDate _ ms => Some ms
  | _ => None
  end.

(** Does the [date] of [item] lie between the bounds, both included? *)
Definition date_within (A B : Z) (item : obj) : bool :=
  match date_ms (obj_get "date" item) with
  | Some ms => (A <=? ms) && (ms <=? B)
  | None => false
  end.

(** Calls on the store, and a run of them. *)
Inductive call : Type :=
  | Create (collection : string) (data : value)
  | Update (collection : string) (id data : value)
  | Delete (collection : string) (id : value).

Definition run_call (c : call) : M (option obj) :=
  match c with
  | Create collection data =>
      item ← memoryDbUtils.create collection data; mret (Some item)
  | Update collection id data => memoryDbUtils.update collection id data
  | Delete collection id => memoryDbUtils.delete collection id
  end.

(** The [_id] of the record each [Create] of the run returned. *)
Fixpoint created_ids (calls : list call) (w : world) : list value :=
  match calls with
  | [] => []
  | c :: calls' =>
      let '(r, w') := run_call c w in
      match c, r with
      | Create _ _, Ok (Some item) =>
          obj_get "_id" item :: created_ids calls' w'
      | _, _ => created_ids calls' w'
      end
  end.

(** The clock reading [Date.now()] returned in each [Create] of the run. *)
Fixpoint id_readings (calls : list call) (w : world) : list Z :=
  match calls with
  | [] => []
  | c :: calls' =>
      let w' := snd (run_call c w) in
      match c with
      | Create _ _ => clock w (ticks w) :: id_readings calls' w'
      | _ => id_readings calls' w'
      end
  end.

Definition collection_of (c : call) : string :=
  match c with
  | Create collection _ | Update collection _ _ | Delete collection _ =>
      collection
  end.

Definition supplies_id (c : call) : bool :=
  match c with
  | Create _ data => has_key "_id" (own_props data)
  | _ => false
  end.

(** Two payloads for [create]. *)
Definition open_day : value :=
  VObject 100%nat [("title", VStr "Open Day")].
Definition careers_fair : value :=
  VObject 101%nat [("title", VStr "Careers Fair")].

(** The filter [{ status: 'pending' }]. *)
Definition pending : value :=
  VObject 100%nat [("status", VStr "pending")].

(** [create], then [update] of the new record's title, then [findById]. *)
Definition retitle_roundtrip : M (option obj) :=
  item ← memoryDbUtils.create "events" open_day;
  patch ← new_object [("title", VStr "Open Evening")];
  memoryDbUtils.update "events" (obj_get "_id" item) patch;;
  memoryDbUtils.findById "events" (obj_get "_id" item).

(** [create], then [update] of the new record's [_id], then [findById] of
    the identifier it was created with. *)
Definition rename_roundtrip : M (option obj) :=
  item ← memoryDbUtils.create "events" open_day;
  patch ← new_object [("_id", VStr "7")];
  memoryDbUtils.update "events" (obj_get "_id" item) patch;;
  memoryDbUtils.findById "events" (obj_get "_id" item).

(** Two [create]s, then [delete] twice with the identifier of the first. *)
Definition delete_twice : M (option obj * option obj) :=
  first ← memoryDbUtils.create "events" open_day;
  memoryDbUtils.create "events" careers_fair;;
  once ← memoryDbUtils.delete "events" (obj_get "_id" first);
  again ← memoryDbUtils.delete "events" (obj_get "_id" first);
  mret (once, again).

(** The record [create] builds from [data] in world [w], and the record
    [update] builds from the stored record [old] and [data]. *)
Definition created_item (data : value) (w : world) : obj :=
  obj_set "updatedAt" (VDate (S (next_loc w)) (clock w (S (S (ticks w)))))
    (obj_set "createdAt" (VDate (next_loc w) (clock w (S (ticks w))))
       (spread [("_id", VStr (pretty (clock w (ticks w))))]
               (own_props data))).

Definition updated_item (old : obj) (data : value) (w : world) : obj :=
  obj_set "updatedAt" (VDate (next_loc w) (clock w (ticks w)))
    (spread (spread [] old) (own_props data)).


(** The conditions of a [$or] list that [Object.keys] accepts. *)
Definition is_nullish (v : value) : bool :=
  match v with
  | VUndefined | VNull => true
  | _ => false
  end.

(** Does [Event.find] extract no condition from [filter]: no truthy [$or],
    and no [date] carrying a truthy [$gte] or [$lte]? *)
Definition extracts_nothing (filter : value) : bool :=
  let date := obj_get "date" (own_props filter) in
  negb (truthy (obj_get "$or" (own_props filter))) &&
  negb (truthy date &&
        (truthy (obj_get "$gte" (own_props date)) ||
         truthy (obj_get "$lte" (own_props date)))).

(** Options that ask for a sort and nothing else. *)
Definition sort_only (sortField : string) (direction : value) : find_options :=
  FindOptions (Some (sortField, direction)) None None.

(** [a < b] on [Date]s and on nothing else: a comparison that orders
    records by date. *)
Definition date_lt (a b : value) : bool :=
  match a, b with
  | VDate _ x, VDate _ y => x <? y
  | _, _ => false
  end.

(** The record [create_sample] stores in world [w], and the world it
    leaves. *)
Definition sample_item (fields : value -> obj) (offset : Z) (w : world) : obj :=
  created_item
    (VObject (next_loc w)
       (fields (VDate (S (next_loc w)) (clock w (ticks w) + offset))))
    (World (memoryDb w) (S (S (next_loc w))) (S (ticks w)) (clock w)
           (console w)).

Definition after_sample (fields : value -> obj) (offset : Z) (w : world)
  : world :=
  World (<["events" := (events w ++ [sample_item fields offset w])%list]>
           (memoryDb w))
        (4 + next_loc w)%nat (4 + ticks w)%nat (clock w) (console w).

(** The world with further lines on the console, logged one by one. *)
Definition logged (lines : list string) (w : world) : world :=
  fold_left (fun w line =>
               World (memoryDb w) (next_loc w) (ticks w) (clock w)
                     (console w ++ [line])%list)
            lines w.

(** Does [connectDB] seed the store in this environment?  It does unless a
    process outside development mode reaches its database. *)
Definition seeds_samples (e : environment) : bool :=
  useMemoryDb e || negb (connect_resolves e)
  || String.eqb (nodeEnv e) "development".

(** The world after one more allocation. *)
Definition allocated (w : world) : world :=
  World (memoryDb w) (S (next_loc w)) (ticks w) (clock w) (console w).

(** The worlds [connectDB] leaves when it seeds after connecting in
    development mode, and when it falls back. *)
Definition seeded_after (lines_before : list string) (last_line : string)
    (w : world) : world :=
  logged ["All events in memory DB:"; last_line]
    (allocated
       (logged ["Created sample event 2:"]
          (after_sample music_festival (2 * week_ms)
             (logged ["Created sample event 1:"]
                (after_sample tech_conference week_ms
                   (logged lines_before w)))))).

(** A [$or] value [memoryDbUtils.find] can evaluate: an array of
    conditions none of which is [undefined] or [null]. *)
Definition or_list (v : value) : bool :=
  match v with
  | VArray _ conditions => forallb (fun c => negb (is_nullish c)) conditions
  | _ => false
  end.

(** A caller whose [req.user] carries the identifier ["u1"]. *)
Definition a_user : value := VObject 200%nat [("id", VStr "u1")].

(** A listing without search text and without date bounds. *)
Definition plain (rq : query.t) : bool :=
  negb (truthy (query.q rq)) && bool_decide (query.dateFrom rq = None)
  && bool_decide (query.dateTo rq = None).

(** [listed] is [event] with its [organizer] replaced by an object holding
    a [name]: the event's organizer when truthy, ["Organizer"] otherwise;
    every other field is the event's. *)
Definition names_organizer (event listed : obj) : Prop :=
  (exists l,
     obj_get "organizer" listed
     = VObject l [("name", if truthy (obj_get "organizer" event)
                           then obj_get "organizer" event
                           else VStr "Organizer")]) /\
  forall key, key <> "organizer" -> obj_get key listed = obj_get key event.

(** The events [listEvents] pages through: what [Event.find] found, sorted
    unless [sortBy] is empty. *)
Definition listing_order (js_lt : value -> value -> bool) (rq : query.t)
    (found : list obj) : result (list obj) :=
  if String.eqb (query.sortBy rq) "" then Ok found
  else sort_by js_lt (query.sortBy rq)
                     (negb (String.eqb (query.sortOrder rq) "desc"))
                     found.

(** [js_lt] compares what the records hold in the sort field
    consistently: it is asymmetric and negatively transitive there, a
    strict weak order. *)
Definition consistent_on (js_lt : value -> value -> bool)
    (sortField : string) (xs : list obj) : Prop :=
  let fields := map (operand sortField) xs in
  (forall a b, a ∈ fields -> b ∈ fields ->
     js_lt a b = true -> js_lt b a = false) /\
  (forall a b c, a ∈ fields -> b ∈ fields -> c ∈ fields ->
     js_lt a c = true -> js_lt a b = true \/ js_lt b c = true).

(** The records are in the order of their sort fields, ascending or
    descending: none is followed, however far behind, by one that belongs
    strictly before it. *)
Definition in_order (js_lt : value -> value -> bool) (sortField : string)
    (asc : bool) (xs : list obj) : Prop :=
  StronglySorted
    (fun earlier later =>
       if asc
       then js_lt (operand sortField later) (operand sortField earlier)
            = false
       else js_lt (operand sortField earlier) (operand sortField later)
            = false)
    xs.

(** An event whose [date] is an object with an own [toString]: it does not
    convert to a primitive.  And the seeded store with that event added. *)
Definition undated : value :=
  VObject 100%nat [("title", VStr "Undated");
                   ("date", VObject 101%nat [("toString", VNum 1%float)])].

Definition seeded_with_undated : world :=
  snd (memoryDbUtils.create "events" undated seeded).

(** [GET /events?status=pending&category=music&organizer=nobody&limit=1],
    sorted by date, latest first. *)
Definition pending_music : query.t :=
  query.Make VUndefined (VStr "music") (VStr "pending") (VStr "nobody")
             None None "date" "desc" 1 1.
(* ===================================================================== *)
(** ** Properties of objects and arrays *)
(* ===================================================================== *)

Lemma has_key_lookup k o : has_key k o = true <-> is_Some (obj_lookup k o).
Proof.
  induction o as [|[k' v] o IH]; simpl.
  - split; [discriminate | intros [? ?]; discriminate].
  - destruct (obj_lookup k o) as [v'|] eqn:E.
    + split; [eauto | intros _]. rewrite (proj2 IH); eauto using orb_true_r.
    + destruct (String.eqb k' k); simpl; [split; eauto |].
      rewrite IH. split; intros [? ?]; discriminate.
Qed.

Lemma has_key_false_lookup k o : has_key k o = false <-> obj_lookup k o = None.
Proof.
  rewrite <- not_true_iff_false, has_key_lookup, eq_None_not_Some. done.
Qed.

Lemma obj_lookup_app_single k k' v o :
  obj_lookup k (o ++ [(k', v)]) =
  if String.eqb k' k then Some v else obj_lookup k o.
Proof.
  induction o as [|[k1 v1] o IH]; simpl.
  - done.
  - rewrite IH. destruct (String.eqb k' k); [done|].
    by destruct (obj_lookup k o).
Qed.

Lemma obj_lookup_map_set k k' v o :
  obj_lookup k
    (map (fun kv => if String.eqb (fst kv) k' then (fst kv, v) else kv) o) =
  if String.eqb k' k then (if has_key k' o then Some v else None)
  else obj_lookup k o.
Proof.
  induction o as [|[k1 v1] o IH]; simpl.
  - by destruct (String.eqb k' k).
  - destruct (String.eqb k1 k') eqn:E1; simpl; rewrite IH;
      destruct (String.eqb k' k) eqn:Ek; try done.
    + apply String.eqb_eq in E1, Ek; subst.
      rewrite String.eqb_refl. by destruct (has_key k o).
    + apply String.eqb_eq in E1; subst. by rewrite Ek.
    + apply String.eqb_eq in Ek; subst. rewrite E1.
      by destruct (has_key k o).
Qed.

Lemma obj_lookup_set k k' v o :
  obj_lookup k (obj_set k' v o) =
  if String.eqb k' k then Some v else obj_lookup k o.
Proof.
  unfold obj_set. destruct (has_key k' o) eqn:E.
  - rewrite obj_lookup_map_set, E. done.
  - apply obj_lookup_app_single.
Qed.

Lemma obj_get_set_eq k v o : obj_get k (obj_set k v o) = v.
Proof. unfold obj_get. by rewrite obj_lookup_set, String.eqb_refl. Qed.

Lemma obj_get_set_ne k k' v o :
  k' <> k -> obj_get k (obj_set k' v o) = obj_get k o.
Proof.
  intros Hne. unfold obj_get. rewrite obj_lookup_set.
  apply String.eqb_neq in Hne. by rewrite Hne.
Qed.

Lemma obj_lookup_spread k source : forall target,
  obj_lookup k (spread target source) =
  match obj_lookup k source with
  | Some v => Some v
  | None => obj_lookup k target
  end.
Proof.
  unfold spread.
  induction source as [|[k' v] source IH]; intros target; simpl; [done|].
  rewrite IH. destruct (obj_lookup k source); [done|].
  rewrite obj_lookup_set. by destruct (String.eqb k' k).
Qed.

Lemma obj_get_spread k target source :
  obj_get k (spread target source) =
  match obj_lookup k source with
  | Some v => v
  | None => obj_get k target
  end.
Proof.
  unfold obj_get. rewrite obj_lookup_spread.
  by destruct (obj_lookup k source).
Qed.

Lemma obj_get_copy k o : obj_get k (spread [] o) = obj_get k o.
Proof.
  rewrite obj_get_spread. unfold obj_get.
  by destruct (obj_lookup k o).
Qed.

Lemma findIndex_Some {A} (p : A -> bool) xs i :
  findIndex p xs = Some i ->
  exists x, xs !! i = Some x /\ p x = true /\ List.find p xs = Some x.
Proof.
  revert i. induction xs as [|y xs IH]; intros i; simpl; [done|].
  destruct (p y) eqn:E.
  - intros [= <-]. eauto.
  - destruct (findIndex p xs) as [j|]; simpl; [|done].
    intros [= <-]. destruct (IH j eq_refl) as (x & ? & ? & ?). eauto.
Qed.

Lemma findIndex_None {A} (p : A -> bool) xs :
  findIndex p xs = None -> List.find p xs = None.
Proof.
  induction xs as [|y xs IH]; simpl; [done|].
  destruct (p y); [done|].
  destruct (findIndex p xs); simpl; [done | auto].
Qed.

Lemma find_insert_found {A} (p : A -> bool) xs i x' :
  findIndex p xs = Some i -> p x' = true ->
  List.find p (<[i := x']> xs) = Some x'.
Proof.
  revert i. induction xs as [|y xs IH]; intros i; simpl; [done|].
  destruct (p y) eqn:E.
  - intros [= <-] Hp. simpl. by rewrite Hp.
  - destruct (findIndex p xs) as [j|]; simpl; [|done].
    intros [= <-] Hp. simpl. rewrite E. eauto.
Qed.

Lemma findIndex_delete_unique {A} (p : A -> bool) xs i :
  findIndex p xs = Some i ->
  (length (List.filter p xs) <= 1)%nat ->
  findIndex p (base.delete i xs) = None.
Proof.
  revert i. induction xs as [|y xs IH]; intros i; simpl; [done|].
  destruct (p y) eqn:E.
  - intros [= <-] Hlen. simpl in *.
    destruct (findIndex p xs) as [j|] eqn:Ej; [|done].
    destruct (findIndex_Some _ _ _ Ej) as (x & Hx & Hp & _).
    assert (In x (List.filter p xs)) as Hin.
    { apply filter_In. split; [|done].
      apply list_elem_of_In, list_elem_of_lookup. eauto. }
    destruct (List.filter p xs); [done | simpl in Hlen; lia].
  - destruct (findIndex p xs) as [j|] eqn:Ej; simpl; [|done].
    intros [= <-] Hlen. simpl. rewrite E, (IH j); done.
Qed.

(* ===================================================================== *)
(** ** The store's operations, step by step *)
(* ===================================================================== *)

Lemma bind_run {A B} (m : M A) (f : A -> M B) (w : world) :
  (m ≫= f) w =
  match m w with
  | (Ok a, w') => f a w'
  | (Throw e, w') => (Throw e, w')
  end.
Proof. reflexivity. Qed.

Lemma options_given {A B} (f : A -> option B) (x : A) : Some x ≫= f = f x.
Proof. reflexivity. Qed.


(** Unfolds the monad, so that a computation applied to a world reduces. *)
Ltac run_M :=
  unfold new_Date, new_Date_at, new_object, collection_or_empty,
         collection_exists, store_collection, console_log, Date_now, alloc,
         lift;
  unfold mbind, M_bind, mret, M_ret; simpl.

Lemma array_at_plain (collection : string) (w : world) :
  inherited collection = false -> array_at collection w.
Proof. by right. Qed.

Lemma array_at_events (w : world) : array_at "events" w.
Proof. by right. Qed.

Lemma array_at_stored (collection : string) (items : list obj)
    (m : gmap string (list obj)) (l : loc) (t : nat) (c : nat -> Z)
    (out : list string) :
  array_at collection (World (<[collection := items]> m) l t c out).
Proof. left. cbn [memoryDb]. rewrite lookup_insert_eq. eauto. Qed.

Lemma read_array (collection : string) (w : world) :
  array_at collection w ->
  collection_or_empty collection w
  = (Ok (Records (default [] (memoryDb w !! collection))), w).
Proof.
  unfold collection_or_empty. intros [[items E] | E]; rewrite E; [done|].
  by destruct (memoryDb w !! collection).
Qed.

Lemma read_builtin (collection : string) (w : world) :
  ~ array_at collection w ->
  collection_or_empty collection w = (Ok (Builtin collection), w).
Proof.
  unfold collection_or_empty, array_at. intros Hno.
  destruct (memoryDb w !! collection) as [items|] eqn:E.
  - destruct Hno. eauto.
  - destruct (inherited collection); [done|]. destruct Hno. by right.
Qed.

Lemma array_at_dec (collection : string) (w : world) :
  array_at collection w \/ ~ array_at collection w.
Proof.
  unfold array_at. destruct (memoryDb w !! collection) as [items|].
  - left. left. eauto.
  - destruct (inherited collection).
    + right. intros [[? ?] | ?]; discriminate.
    + left. by right.
Qed.

(** Reading the array of a collection on which an array method is then
    called. *)
Ltac read_store H :=
  rewrite bind_run, (read_array _ _ H); cbv beta iota;
  rewrite bind_run; cbn [array_of]; unfold mret at 1, M_ret at 1;
  cbv beta iota.

Ltac read_builtin_store H :=
  rewrite bind_run, (read_builtin _ _ H); cbv beta iota;
  rewrite bind_run; cbn [array_of]; unfold lift at 1; cbv beta iota.

Lemma create_returns (collection : string) (data : value) (w : world) :
  array_at collection w ->
  memoryDbUtils.create collection data w =
  (Ok (created_item data w),
   World (<[collection :=
              (default [] (memoryDb w !! collection)
               ++ [created_item data w])%list]>
            (memoryDb w))
         (S (S (next_loc w))) (S (S (S (ticks w)))) (clock w) (console w)).
Proof.
  intros H. unfold memoryDbUtils.create.
  rewrite bind_run. unfold Date_now at 1. cbv beta iota.
  rewrite bind_run. unfold new_Date at 1, Date_now at 1, alloc at 1.
  rewrite !bind_run. cbv beta iota. unfold mret at 1, M_ret at 1.
  cbv beta iota.
  rewrite bind_run. unfold new_Date at 1, Date_now at 1, alloc at 1.
  rewrite !bind_run. cbv beta iota. unfold mret at 1, M_ret at 1.
  cbv beta iota. cbn [memoryDb next_loc ticks clock console].
  set (w3 := World _ _ _ _ _).
  assert (array_at collection w3) as H3 by exact H.
  read_store H3. reflexivity.
Qed.

Lemma create_builtin (collection : string) (data : value) (w : world) :
  ~ array_at collection w ->
  memoryDbUtils.create collection data w =
  (Throw (TypeError "push is not a function"),
   World (memoryDb w) (S (S (next_loc w))) (S (S (S (ticks w)))) (clock w)
         (console w)).
Proof.
  intros H. unfold memoryDbUtils.create.
  rewrite bind_run. unfold Date_now at 1. cbv beta iota.
  rewrite bind_run. unfold new_Date at 1, Date_now at 1, alloc at 1.
  rewrite !bind_run. cbv beta iota. unfold mret at 1, M_ret at 1.
  cbv beta iota.
  rewrite bind_run. unfold new_Date at 1, Date_now at 1, alloc at 1.
  rewrite !bind_run. cbv beta iota. unfold mret at 1, M_ret at 1.
  cbv beta iota. cbn [memoryDb next_loc ticks clock console].
  set (w3 := World _ _ _ _ _).
  assert (~ array_at collection w3) as H3 by exact H.
  read_builtin_store H3. reflexivity.
Qed.

Lemma created_item_id (data : value) (w : world) :
  has_key "_id" (own_props data) = false ->
  obj_get "_id" (created_item data w) = VStr (pretty (clock w (ticks w))).
Proof.
  intros Hid. apply has_key_false_lookup in Hid. unfold created_item.
  rewrite !obj_get_set_ne by done. rewrite obj_get_spread, Hid. reflexivity.
Qed.

Lemma update_found (collection : string) (id data : value) (w : world)
    (index : nat) :
  array_at collection w ->
  findIndex (id_is id) (default [] (memoryDb w !! collection)) = Some index ->
  let items := default [] (memoryDb w !! collection) in
  let item := updated_item (default [] (items !! index)) data w in
  memoryDbUtils.update collection id data w =
  (Ok (Some item),
   World (<[collection := <[index := item]> items]> (memoryDb w))
         (S (next_loc w)) (S (ticks w)) (clock w) (console w)).
Proof.
  intros H Hi. unfold memoryDbUtils.update. read_store H.
  rewrite Hi. reflexivity.
Qed.

Lemma update_missing (collection : string) (id data : value) (w : world) :
  array_at collection w ->
  findIndex (id_is id) (default [] (memoryDb w !! collection)) = None ->
  memoryDbUtils.update collection id data w = (Ok None, w).
Proof.
  intros H Hi. unfold memoryDbUtils.update. read_store H.
  rewrite Hi. reflexivity.
Qed.

Lemma delete_found (collection : string) (id : value) (w : world)
    (index : nat) :
  array_at collection w ->
  findIndex (id_is id) (default [] (memoryDb w !! collection)) = Some index ->
  let items := default [] (memoryDb w !! collection) in
  memoryDbUtils.delete collection id w =
  (Ok (items !! index),
   World (<[collection := base.delete index items]> (memoryDb w))
         (next_loc w) (ticks w) (clock w) (console w)).
Proof.
  intros H Hi. unfold memoryDbUtils.delete. read_store H.
  rewrite Hi. reflexivity.
Qed.

Lemma delete_missing (collection : string) (id : value) (w : world) :
  array_at collection w ->
  findIndex (id_is id) (default [] (memoryDb w !! collection)) = None ->
  memoryDbUtils.delete collection id w = (Ok None, w).
Proof.
  intros H Hi. unfold memoryDbUtils.delete. read_store H.
  rewrite Hi. reflexivity.
Qed.

Lemma findById_reads (collection : string) (id : value) (w : world) :
  array_at collection w ->
  memoryDbUtils.findById collection id w =
  (Ok (List.find (id_is id) (default [] (memoryDb w !! collection))), w).
Proof.
  intros H. unfold memoryDbUtils.findById. by read_store H.
Qed.

(** On a name inherited from [Object.prototype], every operation that
    calls an array method throws, and nothing is stored. *)
Lemma findById_builtin (collection : string) (id : value) (w : world) :
  ~ array_at collection w ->
  memoryDbUtils.findById collection id w
  = (Throw (TypeError "find is not a function"), w).
Proof.
  intros H. unfold memoryDbUtils.findById. by read_builtin_store H.
Qed.

Lemma update_builtin (collection : string) (id data : value) (w : world) :
  ~ array_at collection w ->
  memoryDbUtils.update collection id data w
  = (Throw (TypeError "findIndex is not a function"), w).
Proof.
  intros H. unfold memoryDbUtils.update. by read_builtin_store H.
Qed.

Lemma delete_builtin (collection : string) (id : value) (w : world) :
  ~ array_at collection w ->
  memoryDbUtils.delete collection id w
  = (Throw (TypeError "findIndex is not a function"), w).
Proof.
  intros H. unfold memoryDbUtils.delete. by read_builtin_store H.
Qed.

(** A [findById] that returns has read an array. *)
Lemma findById_array (collection : string) (id : value) (w : world)
    (found : option obj) :
  fst (memoryDbUtils.findById collection id w) = Ok found ->
  array_at collection w.
Proof.
  intros Hf. destruct (array_at_dec collection w) as [H | H]; [done|].
  by rewrite (findById_builtin _ _ _ H) in Hf.
Qed.

Lemma find_keeps_world (collection : string) (query : value) (w : world) :
  snd (memoryDbUtils.find collection query w) = w.
Proof.
  unfold memoryDbUtils.find. rewrite bind_run.
  unfold collection_or_empty at 1. cbv beta iota.
  destruct (negb (truthy query) || _); [done|].
  rewrite bind_run.
  destruct (match memoryDb w !! collection with
            | Some items => Records items
            | None => _
            end) as [items | name]; cbn [array_of].
  - unfold mret at 1, M_ret at 1. cbv beta iota. rewrite bind_run.
    unfold lift at 1. by destruct (filter_array _ _).
  - done.
Qed.

(** [find] on an array: everything it holds when the query has no key,
    the records that match otherwise. *)
Lemma find_reads (collection : string) (query : value) (w : world) :
  array_at collection w ->
  memoryDbUtils.find collection query w =
  (if negb (truthy query) || (length (own_props query) =? 0)%nat
   then Ok (Records (default [] (memoryDb w !! collection)))
   else Records <$> filter_array (memoryDbUtils.matches query)
                      (default [] (memoryDb w !! collection)),
   w).
Proof.
  intros H. unfold memoryDbUtils.find.
  rewrite bind_run, (read_array _ _ H). cbv beta iota.
  destruct (negb (truthy query) || _); [done|].
  rewrite bind_run. cbn [array_of]. unfold mret at 1, M_ret at 1.
  cbv beta iota. rewrite bind_run. unfold lift at 1.
  by destruct (filter_array _ _).
Qed.

(** What [find] returns on an array is an array. *)
Lemma find_records (collection : string) (query : value) (w : world)
    (found : stored) :
  array_at collection w ->
  fst (memoryDbUtils.find collection query w) = Ok found ->
  found = Records (records found).
Proof.
  intros H. rewrite (find_reads _ _ _ H). cbn [fst].
  destruct (negb (truthy query) || _).
  - by intros [= <-].
  - destruct (filter_array _ _) as [items|e]; [|done]. by intros [= <-].
Qed.

(* ===================================================================== *)
(** ** The backend selector *)
(* ===================================================================== *)

Lemma create_sample_runs (fields : value -> obj) (offset : Z) (w : world) :
  create_sample fields offset w
  = (Ok (sample_item fields offset w), after_sample fields offset w).
Proof.
  unfold create_sample. rewrite bind_run. unfold alloc at 1.
  cbv beta iota. rewrite bind_run. unfold Date_now at 1. cbv beta iota.
  rewrite bind_run. unfold new_Date_at at 1, alloc at 1.
  rewrite bind_run. cbv beta iota. unfold mret at 1, M_ret at 1.
  cbv beta iota. rewrite create_returns by apply array_at_events.
  reflexivity.
Qed.

Lemma events_after_sample (fields : value -> obj) (offset : Z) (w : world) :
  events (after_sample fields offset w)
  = (events w ++ [sample_item fields offset w])%list.
Proof. unfold events, after_sample. simpl. by rewrite lookup_insert_eq. Qed.

Lemma others_after_sample (fields : value -> obj) (offset : Z) (w : world)
    (other : string) :
  other <> "events" ->
  memoryDb (after_sample fields offset w) !! other = memoryDb w !! other.
Proof. intros Hne. unfold after_sample. simpl. by apply lookup_insert_ne. Qed.

Lemma console_log_runs (msg : string) (w : world) :
  console_log msg w = (Ok tt, logged [msg] w).
Proof. reflexivity. Qed.

Lemma new_object_runs (props : obj) (w : world) :
  new_object props w = (Ok (VObject (next_loc w) props), allocated w).
Proof. reflexivity. Qed.

Lemma clear_existing_data_noop (w : world) :
  clear_existing_data w = (Ok tt, w).
Proof. reflexivity. Qed.

(** One statement of [connectDB]: a sample is created, or a line is
    logged (clearing, too, comes down to nothing). *)
Ltac sample_step := rewrite bind_run, create_sample_runs; cbv beta iota.
Ltac log_step :=
  rewrite bind_run;
  first [ rewrite console_log_runs | rewrite clear_existing_data_noop ];
  cbv beta iota.

Lemma connectDB_development (e : environment) (w : world) :
  useMemoryDb e = true ->
  connectDB e w =
  (Ok tt,
   logged ["In-memory database initialized with sample data"]
     (after_sample music_festival (2 * week_ms)
        (after_sample tech_conference week_ms w))).
Proof.
  intros He. unfold connectDB. rewrite He.
  do 2 sample_step. reflexivity.
Qed.

Lemma connectDB_connected_development (e : environment) (w : world) :
  useMemoryDb e = false -> connect_resolves e = true ->
  String.eqb (nodeEnv e) "development" = true ->
  connectDB e w =
  (Ok tt,
   seeded_after ["MongoDB connected"]
     "Sample data created for development mode" w).
Proof.
  intros He Hc Hd. unfold connectDB. rewrite He, Hc, Hd.
  log_step. log_step. sample_step. log_step. sample_step. log_step.
  rewrite bind_run, new_object_runs. cbv beta iota.
  rewrite bind_run, find_reads by apply array_at_events.
  reflexivity.
Qed.

Lemma connectDB_connected_elsewhere (e : environment) (w : world) :
  useMemoryDb e = false -> connect_resolves e = true ->
  String.eqb (nodeEnv e) "development" = false ->
  connectDB e w = (Ok tt, logged ["MongoDB connected"] w).
Proof.
  intros He Hc Hd. unfold connectDB. rewrite He, Hc, Hd. reflexivity.
Qed.

Lemma connectDB_fallback (e : environment) (w : world) :
  useMemoryDb e = false -> connect_resolves e = false ->
  connectDB e w =
  (Ok tt,
   seeded_after ["MongoDB connection error:";
                 "Falling back to in-memory database for development"]
     "In-memory database initialized with sample data" w).
Proof.
  intros He Hc. unfold connectDB. rewrite He, Hc.
  do 3 log_step. sample_step. log_step. sample_step. log_step.
  rewrite bind_run, new_object_runs. cbv beta iota.
  rewrite bind_run, find_reads by apply array_at_events.
  reflexivity.
Qed.

(** Whatever the branch, [connectDB] resolves; when it seeds, the store it
    leaves is the one two [create_sample] calls leave. *)
Lemma connectDB_store (e : environment) (w : world) :
  exists w',
    connectDB e w = (Ok tt, w') /\
    memoryDb w' =
      (if seeds_samples e
       then memoryDb (after_sample music_festival (2 * week_ms)
                        (after_sample tech_conference week_ms w))
       else memoryDb w).
Proof.
  unfold seeds_samples.
  destruct (useMemoryDb e) eqn:He.
  { eexists. split; [by apply connectDB_development | reflexivity]. }
  destruct (connect_resolves e) eqn:Hc; simpl.
  - destruct (String.eqb (nodeEnv e) "development") eqn:Hd.
    + eexists. split; [by apply connectDB_connected_development|].
      reflexivity.
    + eexists. split; [by apply connectDB_connected_elsewhere | reflexivity].
  - eexists. split; [by apply connectDB_fallback | reflexivity].
Qed.

(** The flag is settled before any connection is attempted: when
    [connectDB] gets as far as calling [mongoose.connect], it is [false]. *)
Lemma connect_attempt_flag (e : environment) (w : world) :
  In "Falling back to in-memory database for development"
     (console (snd (connectDB e w))) ->
  ~ In "Falling back to in-memory database for development" (console w) ->
  usingMemoryDb e = false.
Proof.
  unfold usingMemoryDb. destruct (useMemoryDb e) eqn:He; [|done].
  rewrite (connectDB_development _ _ He).
  intros Hin Hnot. exfalso. apply Hnot. cbn in Hin.
  apply in_app_or in Hin as [Hin | [Hin | []]]; [done | discriminate].
Qed.

(** C1 (code at the failing input): in a production process whose database
    cannot be reached, [connectDB] resolves, announces the fallback to the
    in-memory database and seeds the two sample events, and the exported
    flag [usingMemoryDb] is [false]. *)
Theorem connectDB_fallback_leaves_flag_false :
  let e := unreachable_production in
  let '(r, w) := connectDB e (boot (ticking_clock 1700000000000)) in
  r = Ok tt /\
  In "Falling back to in-memory database for development" (console w) /\
  map (obj_get "title") (events w) =
    [VStr "Tech Conference 2025"; VStr "Music Festival"] /\
  usingMemoryDb e = false.
Proof. vm_compute. intuition. Qed.

(* ===================================================================== *)
(** ** Ownership in the mock model *)
(* ===================================================================== *)

(** Both mutations read [_id] from the filter and nothing else: two filters
    with the same [_id] have the same effect. *)
Lemma findOneAndUpdate_reads_id_only (filter filter' update : value)
    (w : world) :
  get_prop filter "_id" = get_prop filter' "_id" ->
  Event.findOneAndUpdate filter update w
  = Event.findOneAndUpdate filter' update w.
Proof.
  intros Hid. unfold Event.findOneAndUpdate, lift.
  unfold mbind, M_bind at 1 3. by rewrite Hid.
Qed.

Lemma findOneAndDelete_reads_id_only (filter filter' : value) (w : world) :
  get_prop filter "_id" = get_prop filter' "_id" ->
  Event.findOneAndDelete filter w = Event.findOneAndDelete filter' w.
Proof.
  intros Hid. unfold Event.findOneAndDelete, lift.
  unfold mbind, M_bind. by rewrite Hid.
Qed.

(** C2 (code at the failing input): [alice]'s event is updated through the
    filter [{ _id, organizer: 'bob' }], and deleted through it: the mock
    model reads [_id] from the filter and nothing else. *)
Theorem mock_model_ignores_owner :
  (let '(r, w) := bob_updates_alice_event (boot (frozen_clock 1000)) in
   exists item, r = Ok (Some item) /\ events w = [item] /\
     obj_get "organizer" item = VStr "alice" /\
     obj_get "title" item = VStr "Hijacked") /\
  (let '(r, w) := bob_deletes_alice_event (boot (frozen_clock 1000)) in
   exists item, r = Ok (Some item) /\ events w = [] /\
     obj_get "organizer" item = VStr "alice").
Proof. vm_compute. split; eexists; intuition. Qed.

(* ===================================================================== *)
(** ** The query matcher *)
(* ===================================================================== *)

Lemma every_total {A} (f : A -> result bool) (g : A -> bool) (xs : list A) :
  (forall x, x ∈ xs -> f x = Ok (g x)) ->
  every f xs = Ok (forallb g xs).
Proof.
  induction xs as [|x xs IH]; intros Hf; simpl; [done|].
  rewrite (Hf x) by left. simpl.
  destruct (g x); [|done]. apply IH. intros y Hy. apply Hf. by right.
Qed.

Lemma strict_eq_object (a : value) (l : loc) (props : obj) :
  strict_eq a (VObject l props) = true -> exists props', a = VObject l props'.
Proof.
  destruct a; simpl; try done.
  intros ->%Nat.eqb_eq. eauto.
Qed.

(** C3 (as stated, refuted): the first sample event against
    [{ status: { $ne: 'cancelled' } }] raises nothing; the event is
    rejected. *)
Lemma unsupported_operator_is_silent :
  ~ raises (memoryDbUtils.matches not_cancelled stored_tech_conference) /\
  memoryDbUtils.matches not_cancelled stored_tech_conference = Ok false.
Proof.
  split; [intros [e He]; vm_compute in He; discriminate|].
  vm_compute. reflexivity.
Qed.

(** C3 (amended): a filter without [$or] never raises.  Each of its keys,
    whatever the shape of its value, is compared by strict equality with
    what the record holds under the key: its own property, [undefined] when
    it has none, or the built-in it inherits from [Object.prototype], which
    no value of a filter is equal to.  So a key holding an operator object
    that is not the very object the record owns under the key rejects the
    record. *)
Theorem unrecognized_shape_is_strict_equality
    (query : value) (item : obj) (keys : list string) :
  Object_keys query = Ok keys ->
  "$or" ∉ keys ->
  memoryDbUtils.matches query item =
    Ok (forallb (fun key => field_is item key
                              (obj_get key (own_props query))) keys)
  /\ forall key l props,
       key ∈ keys ->
       obj_get key (own_props query) = VObject l props ->
       (forall props', obj_lookup key item <> Some (VObject l props')) ->
       memoryDbUtils.matches query item = Ok false.
Proof.
  intros Hkeys Hor.
  assert (memoryDbUtils.matches query item =
          Ok (forallb (fun key => field_is item key
                                    (obj_get key (own_props query))) keys))
    as E.
  { unfold memoryDbUtils.matches. rewrite Hkeys. simpl.
    apply every_total. intros key Hin. unfold memoryDbUtils.key_holds.
    destruct (String.eqb key "$or") eqn:Ek; [|done].
    apply String.eqb_eq in Ek. by subst key. }
  split; [done|].
  intros key l props Hin Hobj Hne. rewrite E. f_equal.
  apply not_true_is_false. rewrite forallb_forall. intros Hall.
  specialize (Hall key (proj1 (list_elem_of_In _ _) Hin)).
  rewrite Hobj in Hall. unfold field_is in Hall.
  destruct (obj_lookup key item) as [own|] eqn:Hown.
  - apply strict_eq_object in Hall as [props' ->]. by eapply Hne.
  - by rewrite andb_false_r in Hall.
Qed.

Lemma unrecognized_shape_is_strict_equality_witness :
  memoryDbUtils.matches not_cancelled stored_tech_conference = Ok false.
Proof.
  refine (proj2 (unrecognized_shape_is_strict_equality
                   not_cancelled stored_tech_conference ["status"] _ _)
                "status" 101%nat [("$ne", VStr "cancelled")] _ _ _).
  - reflexivity.
  - intros Hin. apply list_elem_of_In in Hin. vm_compute in Hin. intuition discriminate.
  - apply list_elem_of_In. vm_compute. auto.
  - reflexivity.
  - intros props'. vm_compute. discriminate.
Defined.

(** C4 (code at the failing input): both sample events lie between the
    bounds of the date filter, and the listing between those bounds is
    empty. *)
Theorem date_range_finds_nothing (js_lt : value -> value -> bool) :
  let A := 1700000000000 in
  let B := A + 4 * week_ms in
  map (date_within A B) (events seeded) = [true; true] /\
  fst (list_between js_lt A B seeded) = Ok [].
Proof. vm_compute. split; reflexivity. Qed.

(** C5 (code at the failing input): the store holds the event titled
    "Music Festival", and the search for "music" finds nothing, nor does
    the store when asked for [{ title: { $regex: 'music', $options: 'i' } }]
    directly. *)
Theorem text_search_finds_nothing (js_lt : value -> value -> bool) :
  map (obj_get "title") (events seeded) =
    [VStr "Tech Conference 2025"; VStr "Music Festival"] /\
  fst (search js_lt "music" seeded) = Ok [] /\
  fst (memoryDbUtils.find "events"
         (VObject 100%nat
            [("title", VObject 101%nat [("$regex", VStr "music");
                                        ("$options", VStr "i")])])
         seeded) = Ok (Records []).
Proof. vm_compute. repeat split; reflexivity. Qed.

(* ===================================================================== *)
(** ** Identifiers *)
(* ===================================================================== *)

Lemma run_create (collection : string) (data : value) (w : world) :
  array_at collection w ->
  run_call (Create collection data) w =
  (Ok (Some (created_item data w)),
   snd (memoryDbUtils.create collection data w)).
Proof.
  intros H. unfold run_call. rewrite bind_run, (create_returns _ _ _ H).
  reflexivity.
Qed.



Lemma created_ids_of_readings (calls : list call) : forall w,
  (forall c, c ∈ calls -> supplies_id c = false) ->
  (forall c, c ∈ calls -> inherited (collection_of c) = false) ->
  created_ids calls w =
  map (fun t : Z => VStr (pretty t)) (id_readings calls w).
Proof.
  induction calls as [|c calls IH]; intros w Hids Hnames; [done|].
  assert (forall c', c' ∈ calls -> supplies_id c' = false) as Hrest
    by (intros c' Hc'; apply Hids; by right).
  assert (forall c', c' ∈ calls -> inherited (collection_of c') = false)
    as Hnames' by (intros c' Hc'; apply Hnames; by right).
  assert (supplies_id c = false) as Hc by (apply Hids; left).
  assert (inherited (collection_of c) = false) as Hn by (apply Hnames; left).
  cbn [created_ids id_readings].
  destruct c as [collection data | collection id data | collection id].
  - rewrite run_create by (by apply array_at_plain). cbn [snd map].
    rewrite created_item_id by exact Hc. f_equal. by apply IH.
  - destruct (run_call _ w) as [r w'] eqn:E. cbn [snd]. by apply IH.
  - destruct (run_call _ w) as [r w'] eqn:E. cbn [snd]. by apply IH.
Qed.




(* ===================================================================== *)
(** ** Counting *)
(* ===================================================================== *)





(* ===================================================================== *)
(** ** Update *)
(* ===================================================================== *)

Lemma find_Some_findIndex {A} (p : A -> bool) xs x :
  List.find p xs = Some x ->
  exists i, findIndex p xs = Some i /\ xs !! i = Some x /\ p x = true.
Proof.
  induction xs as [|y xs IH]; simpl; [done|].
  destruct (p y) eqn:E.
  - intros [= <-]. exists 0%nat. eauto.
  - intros Hf. destruct (IH Hf) as (i & -> & ? & ?). exists (S i). eauto.
Qed.

Lemma collection_after_store (collection : string) (items : list obj)
    (m : gmap string (list obj)) :
  default [] (<[collection := items]> m !! collection) = items.
Proof. by rewrite lookup_insert_eq. Qed.

(** C8 (as stated, refuted): a record updated in the millisecond it was
    created in carries an update timestamp equal to its creation timestamp,
    and a record whose [_id] is updated is no longer found under the
    identifier it had. *)
Lemma update_roundtrip_fails :
  (exists found tc tu,
     fst (retitle_roundtrip (boot (frozen_clock 1000))) = Ok (Some found) /\
     date_ms (obj_get "createdAt" found) = Some tc /\
     date_ms (obj_get "updatedAt" found) = Some tu /\
     ~ tc < tu) /\
  fst (rename_roundtrip (boot (ticking_clock 1000))) = Ok None.
Proof.
  split; [|vm_compute; reflexivity].
  vm_compute (fst _). eexists _, 1000, 1000.
  split; [reflexivity|]. vm_compute. repeat split. discriminate.
Qed.

(** C8 (amended): for a stored record with identifier [id] and a field [f]
    other than [_id] and [updatedAt], [update(collection, id, {f: v})]
    followed by [findById(collection, id)] yields the updated record: its
    [f] is [v], every other field but [updatedAt] is as before, and
    [updatedAt] is a fresh [Date] holding the clock reading of the update.
    With [f] other than [createdAt] too, the update timestamp is then at
    least the creation timestamp whenever the clock has not run backwards
    since the creation, and equal to it when the two readings tie. *)
Theorem update_then_findById
    (collection : string) (id v : value) (f : string) (l : loc)
    (old : obj) (w : world) :
  fst (memoryDbUtils.findById collection id w) = Ok (Some old) ->
  f <> "_id" -> f <> "updatedAt" ->
  let now := clock w (ticks w) in
  exists new w',
    memoryDbUtils.update collection id (VObject l [(f, v)]) w
      = (Ok (Some new), w') /\
    memoryDbUtils.findById collection id w' = (Ok (Some new), w') /\
    obj_get f new = v /\
    (forall g, g <> f -> g <> "updatedAt" -> obj_get g new = obj_get g old) /\
    obj_get "updatedAt" new = VDate (next_loc w) now /\
    (forall tc, f <> "createdAt" ->
       date_ms (obj_get "createdAt" old) = Some tc -> tc <= now ->
       exists tu, date_ms (obj_get "createdAt" new) = Some tc /\
                  date_ms (obj_get "updatedAt" new) = Some tu /\
                  tc <= tu /\ (tc = now -> tu = tc)).
Proof.
  intros Hfound Hid Hup now.
  pose proof (findById_array _ _ _ _ Hfound) as Harr.
  rewrite findById_reads in Hfound by exact Harr.
  simpl in Hfound. injection Hfound as Hfound.
  destruct (find_Some_findIndex _ _ _ Hfound) as (i & Hi & Hold & Hp).
  pose proof (update_found collection id (VObject l [(f, v)]) w i Harr Hi)
    as Hu.
  simpl in Hu. rewrite Hold in Hu. simpl in Hu.
  set (new := updated_item old (VObject l [(f, v)]) w) in *.
  assert (forall g, g <> f -> g <> "updatedAt" ->
                    obj_get g new = obj_get g old) as Hframe.
  { intros g Hgf Hgu. unfold new, updated_item.
    rewrite obj_get_set_ne by done. rewrite obj_get_spread. simpl.
    apply not_eq_sym, String.eqb_neq in Hgf. rewrite Hgf.
    apply obj_get_copy. }
  assert (obj_get "updatedAt" new = VDate (next_loc w) now) as Hstamp
    by apply obj_get_set_eq.
  eexists new, _. split; [exact Hu|]. repeat split.
  - rewrite findById_reads by apply array_at_stored.
    cbn [memoryDb]. rewrite collection_after_store.
    f_equal. f_equal. apply find_insert_found; [exact Hi|].
    unfold id_is. rewrite Hframe; done.
  - unfold new, updated_item. rewrite obj_get_set_ne by done.
    rewrite obj_get_spread. simpl. by rewrite String.eqb_refl.
  - exact Hframe.
  - exact Hstamp.
  - intros tc Hfc Hc Hle. exists now. rewrite Hstamp.
    rewrite Hframe by done. done.
Qed.

Lemma update_then_findById_witness :
  exists new w',
    memoryDbUtils.update "events" (VStr "1700000000001")
      (VObject 100%nat [("title", VStr "Tech Conference 2026")]) seeded
      = (Ok (Some new), w') /\
    memoryDbUtils.findById "events" (VStr "1700000000001") w'
      = (Ok (Some new), w') /\
    obj_get "title" new = VStr "Tech Conference 2026".
Proof.
  destruct (update_then_findById "events" (VStr "1700000000001")
              (VStr "Tech Conference 2026") "title" 100%nat
              stored_tech_conference seeded)
    as (new & w' & Hu & Hf & Hv & _).
  - vm_compute. reflexivity.
  - discriminate.
  - discriminate.
  - exists new, w'. auto.
Defined.

(* ===================================================================== *)
(** ** Delete *)
(* ===================================================================== *)

(** C9 (as stated, refuted): two records created in the same millisecond
    share their identifier; the first [delete] with it returns the first
    record and the second [delete] returns the second record, not [null]. *)
Lemma second_delete_returns_a_record :
  exists first second,
    fst (delete_twice (boot (frozen_clock 1000)))
      = Ok (Some first, Some second) /\
    obj_get "title" first = VStr "Open Day" /\
    obj_get "title" second = VStr "Careers Fair".
Proof.
  vm_compute (fst _). eexists _, _.
  split; [reflexivity|]. vm_compute. split; reflexivity.
Qed.

(** C9 (amended): in a collection whose name is none of the names
    [memoryDb] inherits from [Object.prototype], and which holds at most
    one record with the identifier, [delete] called twice returns both
    times without raising: the first call removes and returns the record
    if there is one ([null] otherwise), after which the identifier is not
    found and the second call returns [null] and changes nothing. *)
Theorem delete_twice_returns_null
    (collection : string) (id : value) (w : world) :
  inherited collection = false ->
  let items := default [] (memoryDb w !! collection) in
  (length (List.filter (id_is id) items) <= 1)%nat ->
  exists w1,
    memoryDbUtils.delete collection id w
      = (Ok (List.find (id_is id) items), w1) /\
    memoryDbUtils.findById collection id w1 = (Ok None, w1) /\
    memoryDbUtils.delete collection id w1 = (Ok None, w1).
Proof.
  intros Hname items Hone.
  pose proof (array_at_plain collection w Hname) as Harr.
  destruct (findIndex (id_is id) items) as [i|] eqn:Hi.
  - destruct (findIndex_Some _ _ _ Hi) as (x & Hx & _ & Hf).
    pose proof (findIndex_delete_unique _ _ _ Hi Hone) as Hgone.
    eexists. split; [|split].
    + rewrite (delete_found _ _ _ _ Harr Hi). fold items. rewrite Hx, Hf.
      reflexivity.
    + rewrite findById_reads by apply array_at_stored. cbn [memoryDb].
      rewrite collection_after_store, (findIndex_None _ _ Hgone).
      reflexivity.
    + apply delete_missing; [apply array_at_stored|]. cbn [memoryDb].
      by rewrite collection_after_store.
  - exists w. split; [|split].
    + rewrite (delete_missing _ _ _ Harr Hi). fold items.
      by rewrite (findIndex_None _ _ Hi).
    + rewrite findById_reads by exact Harr. fold items.
      by rewrite (findIndex_None _ _ Hi).
    + by apply delete_missing.
Qed.

Lemma delete_twice_returns_null_witness :
  exists w1,
    memoryDbUtils.delete "events" (VStr "1700000000005") seeded
      = (Ok (List.find (id_is (VStr "1700000000005")) (events seeded)), w1) /\
    memoryDbUtils.findById "events" (VStr "1700000000005") w1
      = (Ok None, w1) /\
    memoryDbUtils.delete "events" (VStr "1700000000005") w1 = (Ok None, w1).
Proof.
  apply (delete_twice_returns_null "events" (VStr "1700000000005") seeded).
  - reflexivity.
  - vm_compute. lia.
Defined.

(* ===================================================================== *)
(** ** System fields under update *)
(* ===================================================================== *)

(** C10: [update] on an existing record merges the payload over it without
    protecting system fields: an [_id] or a [createdAt] carried by the
    payload replaces the stored one, and [updatedAt] is set by the store to
    a fresh [Date] at the clock reading of the update whatever the payload
    says; every other field keeps its value unless the payload carries it,
    and the merged record is the one stored in place of the old one. *)
Theorem update_overwrites_system_fields
    (collection : string) (id data : value) (old : obj) (w : world) :
  fst (memoryDbUtils.findById collection id w) = Ok (Some old) ->
  exists index new w',
    findIndex (id_is id) (default [] (memoryDb w !! collection))
      = Some index /\
    memoryDbUtils.update collection id data w = (Ok (Some new), w') /\
    default [] (memoryDb w' !! collection) !! index = Some new /\
    (forall v, obj_lookup "_id" (own_props data) = Some v ->
               obj_get "_id" new = v) /\
    (forall v, obj_lookup "createdAt" (own_props data) = Some v ->
               obj_get "createdAt" new = v) /\
    obj_get "updatedAt" new = VDate (next_loc w) (clock w (ticks w)) /\
    (forall g, g <> "updatedAt" -> obj_lookup g (own_props data) = None ->
               obj_get g new = obj_get g old).
Proof.
  intros Hfound. pose proof (findById_array _ _ _ _ Hfound) as Harr.
  rewrite findById_reads in Hfound by exact Harr.
  simpl in Hfound. injection Hfound as Hfound.
  destruct (find_Some_findIndex _ _ _ Hfound) as (i & Hi & Hold & Hp).
  pose proof (update_found collection id data w i Harr Hi) as Hu.
  simpl in Hu. rewrite Hold in Hu. simpl in Hu.
  eexists i, _, _. split; [exact Hi|]. split; [exact Hu|].
  cbn [memoryDb]. rewrite collection_after_store. repeat split.
  - apply list_lookup_insert_eq. by eapply lookup_lt_Some.
  - intros v Hv. unfold updated_item. rewrite obj_get_set_ne by done.
    by rewrite obj_get_spread, Hv.
  - intros v Hv. unfold updated_item. rewrite obj_get_set_ne by done.
    by rewrite obj_get_spread, Hv.
  - apply obj_get_set_eq.
  - intros g Hg Hnone. unfold updated_item.
    rewrite obj_get_set_ne by done.
    rewrite obj_get_spread, Hnone. apply obj_get_copy.
Qed.

Lemma update_overwrites_system_fields_witness :
  exists index new w',
    findIndex (id_is (VStr "1700000000001")) (events seeded) = Some index /\
    memoryDbUtils.update "events" (VStr "1700000000001")
      (VObject 100%nat [("_id", VStr "42"); ("createdAt", VNull);
                        ("updatedAt", VStr "never")]) seeded
      = (Ok (Some new), w') /\
    events w' !! index = Some new /\
    obj_get "_id" new = VStr "42" /\
    obj_get "createdAt" new = VNull /\
    obj_get "updatedAt" new = VDate 8%nat 1700000000008.
Proof.
  destruct (update_overwrites_system_fields "events" (VStr "1700000000001")
              (VObject 100%nat [("_id", VStr "42"); ("createdAt", VNull);
                                ("updatedAt", VStr "never")])
              stored_tech_conference seeded)
    as (index & new & w' & Hi & Hu & Hs & Hid & Hc & Hup & _).
  - vm_compute. reflexivity.
  - exists index, new, w'. repeat split; try assumption.
    + by apply Hid.
    + by apply Hc.
Defined.

(* ===================================================================== *)
(** ** The store: reads *)
(* ===================================================================== *)

Lemma filter_array_sublist {A} (f : A -> result bool) (xs ys : list A) :
  filter_array f xs = Ok ys -> sublist ys xs.
Proof.
  revert ys. induction xs as [|x xs IH]; intros ys; simpl.
  - intros [= <-]. constructor.
  - destruct (f x) as [b|e]; simpl; [|done].
    destruct (filter_array f xs) as [rest|e]; simpl; [|done].
    intros [= <-]. destruct b.
    + apply sublist_skip. by apply IH.
    + apply sublist_cons. by apply IH.
Qed.

Lemma find_builtin (collection : string) (query : value) (w : world) :
  ~ array_at collection w ->
  memoryDbUtils.find collection query w =
  (if negb (truthy query) || (length (own_props query) =? 0)%nat
   then Ok (Builtin collection)
   else Throw (TypeError "filter is not a function"),
   w).
Proof.
  intros H. unfold memoryDbUtils.find.
  rewrite bind_run, (read_builtin _ _ H). cbv beta iota.
  by destruct (negb (truthy query) || _).
Qed.

Lemma find_result_sublist (collection : string) (query : value) (w : world)
    (found : list obj) :
  fst (memoryDbUtils.find collection query w) = Ok (Records found) ->
  sublist found (default [] (memoryDb w !! collection)).
Proof.
  destruct (array_at_dec collection w) as [H | H].
  - rewrite (find_reads _ _ _ H). cbn [fst].
    destruct (negb (truthy query) || _).
    + by intros [= <-].
    + destruct (filter_array _ _) as [items|e] eqn:E; [|done].
      intros [= <-]. by eapply filter_array_sublist.
  - rewrite (find_builtin _ _ _ H). cbn [fst].
    by destruct (negb (truthy query) || _).
Qed.

Lemma find_without_keys (collection : string) (query : value) (w : world) :
  own_props query = [] ->
  memoryDbUtils.find collection query w = memoryDbUtils.getAll collection w.
Proof.
  intros Hkeys. unfold memoryDbUtils.find, memoryDbUtils.getAll.
  rewrite bind_run. unfold collection_or_empty. cbv beta iota.
  rewrite Hkeys. cbn [length Nat.eqb]. by rewrite orb_true_r.
Qed.

(** X1: whatever the query, [find] leaves the store as it was, and the
    records it returns are a subsequence of the collection: records of the
    collection, in insertion order, none twice.  A query without keys -
    [{}], a missing or falsy query, a number, a [Date] - returns what
    [getAll] returns; under a name that is none of [Object.prototype]'s
    that is the whole collection, and a collection that was never written
    then reads as empty, whatever the query. *)
Theorem find_returns_subsequence
    (collection : string) (query : value) (w : world) :
  snd (memoryDbUtils.find collection query w) = w /\
  (forall found,
     fst (memoryDbUtils.find collection query w) = Ok (Records found) ->
     sublist found (default [] (memoryDb w !! collection))) /\
  (own_props query = [] ->
     memoryDbUtils.find collection query w
       = memoryDbUtils.getAll collection w) /\
  (inherited collection = false ->
     memoryDbUtils.getAll collection w
       = (Ok (Records (default [] (memoryDb w !! collection))), w) /\
     (memoryDb w !! collection = None ->
        memoryDbUtils.find collection query w = (Ok (Records []), w))).
Proof.
  split; [apply find_keeps_world|]. split; [|split].
  - intros found. apply find_result_sublist.
  - apply find_without_keys.
  - intros Hname. pose proof (array_at_plain collection w Hname) as H.
    split; [by apply read_array|].
    intros Hnone. rewrite (find_reads _ _ _ H), Hnone. simpl.
    by destruct (negb (truthy query) || _).
Qed.

Lemma some_total {A} (f : A -> result bool) (g : A -> bool) (xs : list A) :
  (forall x, x ∈ xs -> f x = Ok (g x)) ->
  some f xs = Ok (existsb g xs).
Proof.
  induction xs as [|x xs IH]; intros Hf; simpl; [done|].
  rewrite (Hf x) by left. simpl.
  destruct (g x); [done|]. apply IH. intros y Hy. apply Hf. by right.
Qed.

(** X2: a query whose [$or] is an array of conditions, none of them
    [undefined] or [null], never raises, and a record satisfies it exactly
    when every other key of the query is strictly equal to what the record
    holds under it, and some condition of the [$or] list has all its keys
    strictly equal to what the record holds under them.  What a record
    holds under a key is its own property, else what it inherits from
    [Object.prototype] - a built-in, which nothing in a query is equal to -
    else [undefined]. *)
Theorem or_query_matches
    (l lo : loc) (props : obj) (conditions : list value) (item : obj) :
  obj_get "$or" props = VArray lo conditions ->
  (forall condition, condition ∈ conditions -> is_nullish condition = false) ->
  exists b,
    memoryDbUtils.matches (VObject l props) item = Ok b /\
    (b = true <->
       (forall key, key ∈ map fst props -> key <> "$or" ->
          field_is item key (obj_get key props) = true) /\
       (exists condition, condition ∈ conditions /\
          forall key, key ∈ map fst (own_props condition) ->
            field_is item key (obj_get key (own_props condition)) = true)).
Proof.
  intros Hor Hwf.
  assert (In "$or" (map fst props)) as Hhas.
  { assert (has_key "$or" props = true) as Hk.
    { apply has_key_lookup. unfold obj_get in Hor.
      destruct (obj_lookup "$or" props); [eauto | discriminate]. }
    unfold has_key in Hk. apply existsb_exists in Hk as ([k v] & Hin & Hk).
    simpl in Hk. apply String.eqb_eq in Hk; subst k.
    apply in_map_iff. by exists ("$or", v). }
  set (cond_ok := fun condition : value =>
         forallb (fun key => field_is item key
                               (obj_get key (own_props condition)))
                 (map fst (own_props condition))).
  set (key_ok := fun key : string =>
         if String.eqb key "$or" then existsb cond_ok conditions
         else field_is item key (obj_get key props)).
  assert (forall condition, condition ∈ conditions ->
            memoryDbUtils.condition_holds item condition
              = Ok (cond_ok condition)) as Hcond.
  { intros condition Hin. unfold memoryDbUtils.condition_holds.
    specialize (Hwf condition Hin).
    assert (Object_keys condition = Ok (map fst (own_props condition))) as ->
      by (by destruct condition).
    simpl. by apply every_total. }
  assert (memoryDbUtils.matches (VObject l props) item
            = Ok (forallb key_ok (map fst props))) as E.
  { unfold memoryDbUtils.matches. simpl. apply every_total.
    intros key _. unfold memoryDbUtils.key_holds, key_ok. simpl.
    destruct (String.eqb key "$or") eqn:Ek; [|done].
    apply String.eqb_eq in Ek; subst key. rewrite Hor.
    by apply some_total. }
  exists (forallb key_ok (map fst props)). split; [exact E|].
  rewrite forallb_forall. split.
  - intros Hall. split.
    + intros key Hin Hne. apply list_elem_of_In, Hall in Hin.
      unfold key_ok in Hin. apply String.eqb_neq in Hne. by rewrite Hne in Hin.
    + apply Hall in Hhas. unfold key_ok in Hhas. simpl in Hhas.
      apply existsb_exists in Hhas as (condition & Hc & Hok).
      exists condition. split; [by apply list_elem_of_In|].
      intros key Hkey. unfold cond_ok in Hok. rewrite forallb_forall in Hok.
      by apply Hok, list_elem_of_In.
  - intros [Hkeys Hsome] key Hin. unfold key_ok.
    destruct (String.eqb key "$or") eqn:Ek.
    + apply String.eqb_eq in Ek; subst key.
      destruct Hsome as (condition & Hc & Hok).
      apply existsb_exists. exists condition.
      split; [by apply list_elem_of_In|].
      unfold cond_ok. apply forallb_forall. intros key Hkey.
      by apply Hok, list_elem_of_In.
    + apply Hkeys; [by apply list_elem_of_In|]. by apply String.eqb_neq.
Qed.

Lemma or_query_matches_witness :
  exists b,
    memoryDbUtils.matches
      (VObject 100%nat
         [("$or", VArray 101%nat
                    [VObject 102%nat [("status", VStr "pending")];
                     VObject 103%nat [("location", VStr "Central Park")]])])
      (music_festival (VDate 0%nat 0)) = Ok b.
Proof.
  destruct (or_query_matches 100%nat 101%nat
              [("$or", VArray 101%nat
                         [VObject 102%nat [("status", VStr "pending")];
                          VObject 103%nat [("location", VStr "Central Park")]])]
              [VObject 102%nat [("status", VStr "pending")];
               VObject 103%nat [("location", VStr "Central Park")]]
              (music_festival (VDate 0%nat 0)) eq_refl)
    as (b & Hb & _).
  - intros condition Hin. apply list_elem_of_In in Hin.
    destruct Hin as [<- | [<- | []]]; reflexivity.
  - by exists b.
Defined.

(** X3: a query whose only key is a [$or] that is not an array raises a
    [TypeError] as soon as the collection holds a record; on an empty
    collection, under a name that is none of [Object.prototype]'s, it
    returns the empty list without raising: the matcher runs once per
    record. *)
Theorem malformed_or_raises_on_first_record
    (collection : string) (l : loc) (conditions : value) (w : world) :
  (forall lo elems, conditions <> VArray lo elems) ->
  let items := default [] (memoryDb w !! collection) in
  (items = [] -> inherited collection = false ->
     memoryDbUtils.find collection (VObject l [("$or", conditions)]) w
       = (Ok (Records []), w)) /\
  (items <> [] ->
     raises (fst (memoryDbUtils.find collection
                    (VObject l [("$or", conditions)]) w))).
Proof.
  intros Hnot items. split.
  - intros Hempty Hname.
    rewrite find_reads by (by apply array_at_plain). fold items.
    by rewrite Hempty.
  - intros Hsome. assert (array_at collection w) as H.
    { left. unfold items in Hsome.
      destruct (memoryDb w !! collection); [eauto | done]. }
    rewrite (find_reads _ _ _ H). fold items.
    destruct items as [|item items']; [done|]. cbn [fst truthy negb orb
      own_props length Nat.eqb filter_array].
    unfold memoryDbUtils.matches at 1. simpl.
    unfold memoryDbUtils.key_holds. simpl.
    change (obj_get "$or" [("$or", conditions)]) with conditions.
    destruct conditions; try (eexists; reflexivity).
    by destruct (Hnot l0 elems).
Qed.

Lemma malformed_or_raises_on_first_record_witness :
  raises (fst (memoryDbUtils.find "events"
                 (VObject 100%nat [("$or", VStr "approved")]) seeded)).
Proof.
  refine (proj2 (malformed_or_raises_on_first_record "events" 100%nat
                   (VStr "approved") seeded _) _).
  - discriminate.
  - vm_compute. discriminate.
Defined.

(** X26: a query [{ key: v }] on a field the record does not own.  When
    [key] is none of [Object.prototype]'s names the field reads as
    [undefined], and the record matches exactly when [v] is [undefined];
    when it is one of them ([toString], [constructor], ...) the record
    holds a built-in under it and never matches, [undefined] included. *)
Theorem missing_field_matches_undefined
    (l : loc) (key : string) (v : value) (item : obj) :
  obj_lookup key item = None ->
  key <> "$or" ->
  memoryDbUtils.matches (VObject l [(key, v)]) item
  = Ok (negb (inherited key) && strict_eq VUndefined v).
Proof.
  intros Hmissing Hkey. unfold memoryDbUtils.matches. cbn.
  unfold memoryDbUtils.key_holds. apply String.eqb_neq in Hkey.
  rewrite Hkey. cbn. unfold field_is. rewrite Hmissing.
  unfold obj_get. cbn. rewrite String.eqb_refl. cbn.
  by destruct (negb (inherited key) && _).
Qed.

Lemma missing_field_matches_undefined_witness :
  memoryDbUtils.matches (VObject 100%nat [("deletedAt", VUndefined)])
    stored_tech_conference = Ok true /\
  memoryDbUtils.matches (VObject 100%nat [("toString", VUndefined)])
    stored_tech_conference = Ok false.
Proof.
  split.
  - apply (missing_field_matches_undefined 100%nat "deletedAt" VUndefined
             stored_tech_conference).
    + vm_compute. reflexivity.
    + discriminate.
  - apply (missing_field_matches_undefined 100%nat "toString" VUndefined
             stored_tech_conference).
    + vm_compute. reflexivity.
    + discriminate.
Defined.

(* ===================================================================== *)
(** ** The store: writes *)
(* ===================================================================== *)

Lemma store_other_collection (collection other : string) (items : list obj)
    (m : gmap string (list obj)) :
  other <> collection -> <[collection := items]> m !! other = m !! other.
Proof. intros Hne. by apply lookup_insert_ne. Qed.

Lemma find_app_single {A} (p : A -> bool) (xs : list A) (x : A) :
  List.find p (xs ++ [x]) =
  match List.find p xs with
  | Some y => Some y
  | None => if p x then Some x else None
  end.
Proof.
  induction xs as [|y xs IH]; simpl; [done|].
  by destruct (p y).
Qed.

Lemma find_None_findIndex {A} (p : A -> bool) (xs : list A) :
  List.find p xs = None -> findIndex p xs = None.
Proof.
  induction xs as [|y xs IH]; simpl; [done|].
  destruct (p y); [done|]. intros Hf. by rewrite IH.
Qed.

Lemma findIndex_first {A} (p : A -> bool) (xs : list A) (i : nat) :
  findIndex p xs = Some i -> forall r, r ∈ take i xs -> p r = false.
Proof.
  revert i. induction xs as [|y xs IH]; intros i; simpl; [done|].
  destruct (p y) eqn:E.
  - intros [= <-] r Hr. simpl in Hr. by apply elem_of_nil in Hr.
  - destruct (findIndex p xs) as [j|]; simpl; [|done].
    intros [= <-] r Hr. simpl in Hr.
    apply elem_of_cons in Hr as [-> | Hr]; [done | by eapply IH].
Qed.

(** X4: under a name that is none of [Object.prototype]'s, [create]
    never raises; it appends the record it returns at the end of the
    collection, creating the collection when it did not exist, and touches
    no other collection. *)
Theorem create_appends_the_record
    (collection : string) (data : value) (w : world) :
  inherited collection = false ->
  exists item w',
    memoryDbUtils.create collection data w = (Ok item, w') /\
    memoryDbUtils.getAll collection w'
      = (Ok (Records (default [] (memoryDb w !! collection) ++ [item])%list),
         w') /\
    (forall other, other <> collection ->
       memoryDb w' !! other = memoryDb w !! other).
Proof.
  intros Hname. eexists _, _.
  split; [by apply create_returns, array_at_plain|]. split.
  - unfold memoryDbUtils.getAll. rewrite read_array by apply array_at_stored.
    cbn [memoryDb]. by rewrite collection_after_store.
  - intros other Hne. cbn [memoryDb]. by apply store_other_collection.
Qed.

Lemma create_appends_the_record_witness :
  exists item w',
    memoryDbUtils.create "reviews" open_day seeded = (Ok item, w') /\
    memoryDbUtils.getAll "reviews" w'
      = (Ok (Records (default [] (memoryDb seeded !! "reviews") ++ [item])
               %list), w').
Proof.
  destruct (create_appends_the_record "reviews" open_day seeded eq_refl)
    as (item & w' & Hc & Hall & _).
  exists item, w'. split; [exact Hc | exact Hall].
Defined.

(** X5: under a name that is none of [Object.prototype]'s, the record
    [create] returns carries two timestamps made by the store from two
    further clock readings, whatever the payload holds under [createdAt]
    and [updatedAt]; its [_id] is the payload's when the payload has one
    and the decimal form of the first clock reading otherwise; every other
    field of the payload is copied. *)
Theorem create_stamps_the_record
    (collection : string) (data : value) (w : world) :
  inherited collection = false ->
  exists item,
    fst (memoryDbUtils.create collection data w) = Ok item /\
    obj_get "createdAt" item
      = VDate (next_loc w) (clock w (S (ticks w))) /\
    obj_get "updatedAt" item
      = VDate (S (next_loc w)) (clock w (S (S (ticks w)))) /\
    obj_get "_id" item
      = default (VStr (pretty (clock w (ticks w))))
                (obj_lookup "_id" (own_props data)) /\
    (forall key v, key <> "createdAt" -> key <> "updatedAt" ->
       obj_lookup key (own_props data) = Some v -> obj_get key item = v).
Proof.
  intros Hname. exists (created_item data w).
  rewrite create_returns by (by apply array_at_plain). unfold created_item.
  repeat split.
  - rewrite obj_get_set_ne by done. apply obj_get_set_eq.
  - apply obj_get_set_eq.
  - rewrite !obj_get_set_ne by done. rewrite obj_get_spread.
    by destruct (obj_lookup "_id" (own_props data)).
  - intros key v Hc Hu Hv. rewrite !obj_get_set_ne by done.
    by rewrite obj_get_spread, Hv.
Qed.

Lemma create_stamps_the_record_witness :
  let data :=
    VObject 100%nat [("_id", VStr "42"); ("createdAt", VStr "never");
                     ("title", VStr "Open Day")] in
  exists item,
    fst (memoryDbUtils.create "events" data seeded) = Ok item /\
    obj_get "createdAt" item
      = VDate (next_loc seeded) (clock seeded (S (ticks seeded))) /\
    obj_get "_id" item = VStr "42" /\
    obj_get "title" item = VStr "Open Day".
Proof.
  intros data.
  destruct (create_stamps_the_record "events" data seeded eq_refl)
    as (item & Hc & Hcreated & _ & Hid & Hcopy).
  exists item. split; [exact Hc|]. split; [exact Hcreated|].
  split; [exact Hid|]. by apply Hcopy.
Defined.

(** X6: under a name that is none of [Object.prototype]'s, after [create]
    with a payload that has no [_id], [findById] with the new identifier
    returns the new record, unless an older record of the collection
    already carries that identifier: then the older record is returned and
    the new one cannot be reached by its identifier. *)
Theorem findById_after_create
    (collection : string) (data : value) (w : world) :
  inherited collection = false ->
  has_key "_id" (own_props data) = false ->
  let id := VStr (pretty (clock w (ticks w))) in
  exists item w',
    memoryDbUtils.create collection data w = (Ok item, w') /\
    obj_get "_id" item = id /\
    memoryDbUtils.findById collection id w'
      = (Ok (Some (default item
                     (List.find (id_is id)
                        (default [] (memoryDb w !! collection))))), w').
Proof.
  intros Hname Hid id. eexists _, _.
  split; [by apply create_returns, array_at_plain|].
  split; [by apply created_item_id|].
  rewrite findById_reads by apply array_at_stored.
  cbn [memoryDb]. rewrite collection_after_store.
  rewrite find_app_single. unfold id_is at 2.
  rewrite created_item_id by exact Hid. unfold id. simpl.
  rewrite String.eqb_refl. by destruct (List.find _ _).
Qed.

Lemma findById_after_create_witness :
  exists item w',
    memoryDbUtils.create "events" open_day seeded = (Ok item, w') /\
    obj_get "_id" item = VStr (pretty (clock seeded (ticks seeded))) /\
    memoryDbUtils.findById "events"
      (VStr (pretty (clock seeded (ticks seeded)))) w'
      = (Ok (Some (default item
                     (List.find
                        (id_is (VStr (pretty (clock seeded (ticks seeded)))))
                        (default [] (memoryDb seeded !! "events"))))), w').
Proof.
  apply (findById_after_create "events" open_day seeded); reflexivity.
Defined.

(** X7: [update] and [delete] with an identifier that [findById] does not
    find return [null] and change nothing: no record, no timestamp, and the
    clock is not even read. *)
Theorem unknown_identifier_changes_nothing
    (collection : string) (id data : value) (w : world) :
  fst (memoryDbUtils.findById collection id w) = Ok None ->
  memoryDbUtils.update collection id data w = (Ok None, w) /\
  memoryDbUtils.delete collection id w = (Ok None, w).
Proof.
  intros Hnone. pose proof (findById_array _ _ _ _ Hnone) as Harr.
  rewrite findById_reads in Hnone by exact Harr.
  simpl in Hnone. injection Hnone as Hnone.
  apply find_None_findIndex in Hnone.
  split; [by apply update_missing | by apply delete_missing].
Qed.

Lemma unknown_identifier_changes_nothing_witness :
  memoryDbUtils.update "events" (VStr "404") open_day seeded
    = (Ok None, seeded) /\
  memoryDbUtils.delete "events" (VStr "404") seeded = (Ok None, seeded).
Proof.
  apply (unknown_identifier_changes_nothing "events" (VStr "404") open_day
           seeded).
  vm_compute. reflexivity.
Defined.

(** X8: [update] replaces the first record that carries the identifier and
    nothing else: the collection keeps its length and every other position
    (a later record with the same identifier included), and the other
    collections are untouched. *)
Theorem update_replaces_first_match
    (collection : string) (id data : value) (old : obj) (w : world) :
  fst (memoryDbUtils.findById collection id w) = Ok (Some old) ->
  let items := default [] (memoryDb w !! collection) in
  exists index new w',
    memoryDbUtils.update collection id data w = (Ok (Some new), w') /\
    items !! index = Some old /\
    (forall r, r ∈ take index items -> id_is id r = false) /\
    default [] (memoryDb w' !! collection) = <[index := new]> items /\
    length (default [] (memoryDb w' !! collection)) = length items /\
    (forall j, j <> index ->
       default [] (memoryDb w' !! collection) !! j = items !! j) /\
    (forall other, other <> collection ->
       memoryDb w' !! other = memoryDb w !! other).
Proof.
  intros Hfound items. pose proof (findById_array _ _ _ _ Hfound) as Harr.
  rewrite findById_reads in Hfound by exact Harr.
  simpl in Hfound. injection Hfound as Hfound.
  destruct (find_Some_findIndex _ _ _ Hfound) as (i & Hi & Hold & Hp).
  pose proof (update_found collection id data w i Harr Hi) as Hu.
  simpl in Hu.
  eexists i, _, _. split; [exact Hu|]. cbn [memoryDb].
  rewrite collection_after_store. repeat split.
  - exact Hold.
  - by apply findIndex_first.
  - apply length_insert.
  - intros j Hj. by apply list_lookup_insert_ne.
  - intros other Hne. by apply store_other_collection.
Qed.

Lemma update_replaces_first_match_witness :
  exists index new w',
    memoryDbUtils.update "events" (VStr "1700000000005") open_day seeded
      = (Ok (Some new), w') /\
    events seeded !! index = Some (default [] (events seeded !! 1%nat)) /\
    length (events w') = length (events seeded).
Proof.
  destruct (update_replaces_first_match "events" (VStr "1700000000005")
              open_day (default [] (events seeded !! 1%nat)) seeded)
    as (index & new & w' & Hu & Hold & _ & _ & Hlen & _).
  - vm_compute. reflexivity.
  - exists index, new, w'. auto.
Defined.

(** X9: [delete] removes the first record that carries the identifier, and
    only that one: the records before and after it stay, in order, the
    other collections are untouched, and the removed record is returned. *)
Theorem delete_removes_first_match
    (collection : string) (id : value) (old : obj) (w : world) :
  fst (memoryDbUtils.findById collection id w) = Ok (Some old) ->
  let items := default [] (memoryDb w !! collection) in
  exists index w',
    memoryDbUtils.delete collection id w = (Ok (Some old), w') /\
    items = (take index items ++ old :: drop (S index) items)%list /\
    (forall r, r ∈ take index items -> id_is id r = false) /\
    default [] (memoryDb w' !! collection)
      = (take index items ++ drop (S index) items)%list /\
    (forall other, other <> collection ->
       memoryDb w' !! other = memoryDb w !! other).
Proof.
  intros Hfound items. pose proof (findById_array _ _ _ _ Hfound) as Harr.
  rewrite findById_reads in Hfound by exact Harr.
  simpl in Hfound. injection Hfound as Hfound.
  destruct (find_Some_findIndex _ _ _ Hfound) as (i & Hi & Hold & Hp).
  pose proof (delete_found collection id w i Harr Hi) as Hd. simpl in Hd.
  fold items in Hd, Hold. rewrite Hold in Hd.
  eexists i, _. split; [exact Hd|]. cbn [memoryDb].
  rewrite collection_after_store. repeat split.
  - symmetry. by apply take_drop_middle.
  - by apply findIndex_first.
  - apply delete_take_drop.
  - intros other Hne. by apply store_other_collection.
Qed.

Lemma delete_removes_first_match_witness :
  exists index w',
    memoryDbUtils.delete "events" (VStr "1700000000001") seeded
      = (Ok (Some stored_tech_conference), w') /\
    events w' = (take index (events seeded)
                 ++ drop (S index) (events seeded))%list.
Proof.
  destruct (delete_removes_first_match "events" (VStr "1700000000001")
              stored_tech_conference seeded)
    as (index & w' & Hd & _ & _ & Hrest & _).
  - vm_compute. reflexivity.
  - exists index, w'. auto.
Defined.

(* ===================================================================== *)
(** ** Names inherited from [Object.prototype] *)
(* ===================================================================== *)

(** No call adds a collection under a name on which it throws. *)
Lemma run_call_keeps_missing (c : call) (collection : string) (w : world) :
  ~ array_at collection w ->
  memoryDb (snd (run_call c w)) !! collection = None.
Proof.
  intros Hno.
  assert (memoryDb w !! collection = None) as Hnone.
  { destruct (memoryDb w !! collection) eqn:E; [|done].
    destruct Hno. left. eauto. }
  assert (forall other, array_at other w -> other <> collection)
    as Hother by (intros other H ->; by apply Hno).
  destruct c as [other data | other id data | other id]; cbn [run_call].
  - destruct (array_at_dec other w) as [H | H].
    + rewrite bind_run, (create_returns _ _ _ H). cbv beta iota.
      unfold mret, M_ret. cbn [snd memoryDb].
      rewrite lookup_insert_ne by (by apply Hother). exact Hnone.
    + rewrite bind_run, (create_builtin _ _ _ H). exact Hnone.
  - destruct (array_at_dec other w) as [H | H].
    + destruct (findIndex (id_is id) (default [] (memoryDb w !! other)))
        as [i|] eqn:Hi.
      * rewrite (update_found _ _ _ _ _ H Hi). cbn [snd memoryDb].
        rewrite lookup_insert_ne by (by apply Hother). exact Hnone.
      * by rewrite (update_missing _ _ _ _ H Hi).
    + by rewrite (update_builtin _ _ _ _ H).
  - destruct (array_at_dec other w) as [H | H].
    + destruct (findIndex (id_is id) (default [] (memoryDb w !! other)))
        as [i|] eqn:Hi.
      * rewrite (delete_found _ _ _ _ H Hi). cbn [snd memoryDb].
        rewrite lookup_insert_ne by (by apply Hother). exact Hnone.
      * by rewrite (delete_missing _ _ _ H Hi).
    + by rewrite (delete_builtin _ _ _ H).
Qed.

(** X24: a name [memoryDb] inherits from [Object.prototype] - [toString],
    [constructor], [__proto__], ... - is no collection, and no call makes
    it one.  [getAll], and [find] with a query without keys, hand back the
    built-in found under the name, which is no array; [find] with a query
    that has keys, [findById], [update] and [delete] raise a [TypeError]
    and change nothing; [create] raises too, after it has read the clock,
    and stores nothing. *)
Theorem prototype_names_are_no_collections
    (collection : string) (id data query : value) (w : world) :
  inherited collection = true ->
  memoryDb w !! collection = None ->
  memoryDbUtils.getAll collection w = (Ok (Builtin collection), w) /\
  (own_props query = [] ->
     memoryDbUtils.find collection query w = (Ok (Builtin collection), w)) /\
  (truthy query = true -> own_props query <> [] ->
     exists e, memoryDbUtils.find collection query w = (Throw e, w)) /\
  (exists e, memoryDbUtils.findById collection id w = (Throw e, w)) /\
  (exists e, memoryDbUtils.update collection id data w = (Throw e, w)) /\
  (exists e, memoryDbUtils.delete collection id w = (Throw e, w)) /\
  (exists e w',
     memoryDbUtils.create collection data w = (Throw e, w') /\
     memoryDb w' = memoryDb w /\ ticks w' = (3 + ticks w)%nat) /\
  forall c, memoryDb (snd (run_call c w)) !! collection = None.
Proof.
  intros Hname Hnone.
  assert (~ array_at collection w) as Hno.
  { intros [[items E] | E]; congruence. }
  split; [by apply read_builtin|].
  split.
  { intros Hkeys. rewrite (find_builtin _ _ _ Hno), Hkeys. cbn.
    by rewrite orb_true_r. }
  split.
  { intros Htruthy Hkeys. rewrite (find_builtin _ _ _ Hno), Htruthy.
    destruct (own_props query); [done|]. cbn. eauto. }
  split; [rewrite (findById_builtin _ _ _ Hno); eauto|].
  split; [rewrite (update_builtin _ _ _ _ Hno); eauto|].
  split; [rewrite (delete_builtin _ _ _ Hno); eauto|].
  split; [rewrite (create_builtin _ _ _ Hno); by eexists _, _|].
  intros c. by apply run_call_keeps_missing.
Qed.

Lemma prototype_names_are_no_collections_witness :
  memoryDbUtils.getAll "toString" seeded = (Ok (Builtin "toString"), seeded) /\
  (exists e, memoryDbUtils.findById "toString" (VStr "1") seeded
             = (Throw e, seeded)).
Proof.
  destruct (prototype_names_are_no_collections "toString" (VStr "1")
              open_day pending seeded)
    as (Hall & _ & _ & Hfind & _).
  - reflexivity.
  - vm_compute. reflexivity.
  - split; [exact Hall | exact Hfind].
Defined.

(* ===================================================================== *)
(** ** The mock model's [find] *)
(* ===================================================================== *)

Lemma extract_query_reads (filter filter' : value) (w : world) :
  get_prop filter "$or" = get_prop filter' "$or" ->
  get_prop filter "date" = get_prop filter' "date" ->
  Event.extract_query filter w = Event.extract_query filter' w.
Proof.
  intros Hor Hdate. unfold Event.extract_query, lift, alloc.
  unfold mbind, M_bind. by rewrite Hor, Hdate.
Qed.

(** X10: [Event.find] reads [$or] and [date] from its filter and nothing
    else: two filters that agree on these two properties give the same
    result and the same effects, whatever their other keys ([status],
    [category], [organizer], ...) say. *)
Theorem find_reads_or_and_date_only
    (js_lt : value -> value -> bool) (filter filter' : value)
    (options : option find_options) (w : world) :
  get_prop filter "$or" = get_prop filter' "$or" ->
  get_prop filter "date" = get_prop filter' "date" ->
  Event.find js_lt filter options w = Event.find js_lt filter' options w.
Proof.
  intros Hor Hdate. unfold Event.find. rewrite !bind_run.
  by rewrite (extract_query_reads filter filter' w Hor Hdate).
Qed.

Lemma find_reads_or_and_date_only_witness :
  Event.find date_lt pending None seeded
  = Event.find date_lt (VObject 100%nat []) None seeded.
Proof.
  apply (find_reads_or_and_date_only date_lt pending (VObject 100%nat [])
           None seeded); reflexivity.
Defined.

Lemma slice_nonneg {A} (s n : Z) (xs : list A) :
  0 <= s -> 0 <= n ->
  slice s (s + n) xs = take (Z.to_nat n) (drop (Z.to_nat s) xs).
Proof.
  intros Hs Hn. unfold slice, clamp_index.
  destruct (Z.ltb_spec s 0); [lia|]. destruct (Z.ltb_spec (s + n) 0); [lia|].
  destruct (Z_le_gt_dec (Z.of_nat (length xs)) s) as [Hge | Hlt].
  - rewrite (drop_ge xs (Z.to_nat s)) by lia.
    rewrite drop_ge by lia. by rewrite !take_nil.
  - replace (Z.min s (Z.of_nat (length xs))) with s by lia.
    destruct (Z_le_gt_dec (s + n) (Z.of_nat (length xs))).
    + f_equal. lia.
    + rewrite !take_ge; [done | |]; rewrite length_drop; lia.
Qed.

(** X11: with [skip >= 0] and [limit >= 0] both given, [Event.find] returns
    the window of at most [limit] records that starts [skip] records into
    the (sorted) result it would return without them; a [skip] beyond the
    end gives the empty list, never an error. *)
Theorem find_paginates
    (js_lt : value -> value -> bool) (filter : value)
    (order : option (string * value)) (s n : Z) (w : world) :
  0 <= s -> 0 <= n ->
  let unpaged := Event.find js_lt filter (Some (FindOptions order None None)) w in
  let paged :=
    Event.find js_lt filter (Some (FindOptions order (Some s) (Some n))) w in
  fst paged = (fun found => take (Z.to_nat n) (drop (Z.to_nat s) found))
                <$> fst unpaged /\
  snd paged = snd unpaged /\
  (forall found, fst paged = Ok found -> (length found <= Z.to_nat n)%nat) /\
  (forall all, fst unpaged = Ok all -> Z.of_nat (length all) <= s ->
     fst paged = Ok []).
Proof.
  intros Hs Hn unpaged paged.
  assert (fst paged = (fun found => take (Z.to_nat n) (drop (Z.to_nat s) found))
                        <$> fst unpaged /\ snd paged = snd unpaged) as [E Ew].
  { unfold paged, unpaged, Event.find. rewrite !bind_run.
    destruct (Event.extract_query filter w) as [[query|e] w1]; [|done].
    rewrite !bind_run.
    destruct (memoryDbUtils.find "events" query w1) as [[found|e] w2]; [|done].
    rewrite !bind_run, !options_given. cbn [sort skip limit].
    destruct order as [[sortField direction]|].
    - rewrite !bind_run. unfold lift.
      destruct (sort_by js_lt sortField _ (records found)) as [sorted|e];
        [|done].
      destruct (@mbind M _ _ _ _ (collection_exists "events") w2)
        as [[stored|e] w3]; [|done].
      unfold mret, M_ret. simpl. by rewrite slice_nonneg.
    - unfold mret, M_ret. simpl. by rewrite slice_nonneg. }
  split; [exact E|]. split; [exact Ew|]. split.
  - intros found. rewrite E. destruct (fst unpaged); simpl; [|done].
    intros [= <-]. rewrite length_take. lia.
  - intros all Hall Hlen. rewrite E, Hall. simpl.
    rewrite drop_ge by lia. by rewrite take_nil.
Qed.

Lemma find_paginates_witness :
  fst (Event.find date_lt (VObject 100%nat [])
         (Some (FindOptions None (Some 5) (Some 10))) seeded) = Ok [].
Proof.
  refine (proj2 (proj2 (proj2 (find_paginates date_lt (VObject 100%nat [])
                                 None 5 10 seeded _ _))) (events seeded) _ _).
  - lia.
  - lia.
  - vm_compute. reflexivity.
  - vm_compute. discriminate.
Defined.

Lemma insert_sorted_perm {A} (cmp : A -> A -> Z) (x : A) (xs : list A) :
  insert_sorted cmp x xs ≡ₚ x :: xs.
Proof.
  induction xs as [|y xs IH]; simpl; [done|].
  destruct (cmp x y <=? 0); [done|].
  rewrite IH. apply Permutation_swap.
Qed.

Lemma array_sort_perm {A} (cmp : A -> A -> Z) (xs : list A) :
  array_sort cmp xs ≡ₚ xs.
Proof.
  induction xs as [|x xs IH]; simpl; [done|].
  rewrite insert_sorted_perm. by rewrite IH.
Qed.

Lemma insert_sorted_sorted {A} (P : A -> Prop) (cmp : A -> A -> Z) (x : A)
    (xs : list A) :
  (forall a b, P a -> P b -> 0 < cmp a b -> cmp b a <= 0) ->
  (forall a b c, P a -> P b -> P c ->
     cmp a b <= 0 -> cmp b c <= 0 -> cmp a c <= 0) ->
  P x -> Forall P xs ->
  StronglySorted (fun a b => cmp a b <= 0) xs ->
  StronglySorted (fun a b => cmp a b <= 0) (insert_sorted cmp x xs).
Proof.
  intros Htotal Htrans Hx. induction xs as [|y xs IH]; intros HP Hs; simpl.
  - repeat constructor.
  - apply StronglySorted_inv in Hs as [Hs Hy].
    apply Forall_cons in HP as [Py HP].
    destruct (Z.leb_spec (cmp x y) 0) as [Hle | Hgt].
    + constructor; [by constructor|]. constructor; [done|].
      rewrite Forall_forall in Hy, HP. apply Forall_forall.
      intros z Hz. apply (Htrans x y z); auto.
    + constructor; [by apply IH|].
      rewrite (insert_sorted_perm cmp x xs). constructor; [|done].
      by apply Htotal.
Qed.

Lemma array_sort_sorted {A} (P : A -> Prop) (cmp : A -> A -> Z)
    (xs : list A) :
  (forall a b, P a -> P b -> 0 < cmp a b -> cmp b a <= 0) ->
  (forall a b c, P a -> P b -> P c ->
     cmp a b <= 0 -> cmp b c <= 0 -> cmp a c <= 0) ->
  Forall P xs ->
  StronglySorted (fun a b => cmp a b <= 0) (array_sort cmp xs).
Proof.
  intros Htotal Htrans. induction xs as [|x xs IH]; intros HP; simpl.
  - constructor.
  - apply Forall_cons in HP as [Px HP].
    apply (insert_sorted_sorted P); auto.
    by rewrite array_sort_perm.
Qed.

Lemma extract_query_keeps_store (filter : value) (w : world) :
  memoryDb (snd (Event.extract_query filter w)) = memoryDb w.
Proof.
  unfold Event.extract_query. run_M.
  destruct (get_prop filter "$or") as [or|e]; simpl; [|done].
  destruct (get_prop filter "date") as [date|e]; simpl; [|done].
  destruct (truthy date); simpl; [|done].
  destruct (get_prop date "$gte") as [gte|e]; simpl; [|done].
  destruct (get_prop date "$lte") as [lte|e]; simpl; [|done].
  by destruct (truthy gte || truthy lte).
Qed.

Lemma strongly_sorted_weaken {A} (R R' : A -> A -> Prop) (xs : list A) :
  (forall a b, R a b -> R' a b) ->
  StronglySorted R xs -> StronglySorted R' xs.
Proof.
  intros Himpl. induction 1 as [|x xs Hs IH Hx]; constructor; [done|].
  eapply Forall_impl; [exact Hx|]. auto.
Qed.

(** What [Event.find] returns with a sort option is the sort of what it
    returns without. *)
Lemma find_sorts_the_result (js_lt : value -> value -> bool) (filter : value)
    (sortField : string) (direction : value) (w : world) :
  fst (Event.find js_lt filter (Some (sort_only sortField direction)) w) =
  fst (Event.find js_lt filter None w)
  ≫= sort_by js_lt sortField (negb (strict_eq direction (VNum (-1)%float))).
Proof.
  unfold Event.find, sort_only. rewrite !bind_run.
  destruct (Event.extract_query filter w) as [[query|e] w1]; [|done].
  rewrite !bind_run.
  destruct (memoryDbUtils.find "events" query w1) as [[found|e] w2]; [|done].
  rewrite !bind_run, !options_given. cbn [sort skip limit].
  rewrite bind_run. unfold lift at 1.
  unfold mret, M_ret. simpl (None ≫= _). cbn [fst mbind result_bind].
  destruct (sort_by js_lt sortField _ (records found)) as [sorted|e];
    [|done].
  rewrite bind_run. unfold collection_exists at 1. cbv beta iota.
  rewrite bind_run.
  by destruct (bool_decide _ && _).
Qed.

Lemma sort_by_returns (js_lt : value -> value -> bool) (sortField : string)
    (asc : bool) (xs sorted : list obj) :
  sort_by js_lt sortField asc xs = Ok sorted ->
  sorted = array_sort (compare_by js_lt sortField asc) xs.
Proof.
  unfold sort_by. destruct (_ || _); [|done]. by intros [= <-].
Qed.

(** With a consistent comparison, the sort leaves the records in the
    order of their sort fields. *)
Lemma array_sort_in_order (js_lt : value -> value -> bool)
    (sortField : string) (asc : bool) (domain xs : list obj) :
  consistent_on js_lt sortField domain ->
  Forall (fun item => item ∈ domain) xs ->
  in_order js_lt sortField asc
    (array_sort (compare_by js_lt sortField asc) xs).
Proof.
  intros [Hasym Hneg] Hstored. cbv zeta in Hasym, Hneg.
  set (fields := map (operand sortField) domain) in *.
  assert (forall item, item ∈ domain -> operand sortField item ∈ fields)
    as Hfield
    by (intros item Hin; apply list_elem_of_In, in_map;
        by apply list_elem_of_In).
  assert (forall a b, a ∈ domain -> b ∈ domain ->
            (compare_by js_lt sortField asc a b <= 0 <->
             (if asc
              then js_lt (operand sortField b) (operand sortField a) = false
              else js_lt (operand sortField a) (operand sortField b) = false)))
    as Hle.
  { intros a b Ha Hb. unfold compare_by.
    pose proof (Hasym _ _ (Hfield a Ha) (Hfield b Hb)).
    destruct asc, (js_lt (operand sortField a) (operand sortField b)),
      (js_lt (operand sortField b) (operand sortField a));
      split; intros; try done; try lia; by auto. }
  assert (StronglySorted
            (fun a b => compare_by js_lt sortField asc a b <= 0)
            (array_sort (compare_by js_lt sortField asc) xs)) as Hs.
  { apply (array_sort_sorted (fun item => item ∈ domain)); [| |exact Hstored].
    - intros a b Ha Hb Hgt. apply (Hle b a Hb Ha).
      assert (~ compare_by js_lt sortField asc a b <= 0) as Hn by lia.
      rewrite (Hle a b Ha Hb) in Hn.
      destruct asc; apply Hasym; auto; by destruct (js_lt _ _).
    - intros a b c Ha Hb Hc Hab Hbc.
      rewrite (Hle a b Ha Hb) in Hab. rewrite (Hle b c Hb Hc) in Hbc.
      apply (Hle a c Ha Hc). destruct asc.
      + destruct (js_lt (operand sortField c) (operand sortField a)) eqn:E;
          [|done].
        destruct (Hneg _ (operand sortField b) _
                    (Hfield c Hc) (Hfield b Hb) (Hfield a Ha) E); congruence.
      + destruct (js_lt (operand sortField a) (operand sortField c)) eqn:E;
          [|done].
        destruct (Hneg _ (operand sortField b) _
                    (Hfield a Ha) (Hfield b Hb) (Hfield c Hc) E);
          congruence. }
  assert (Forall (fun item => item ∈ domain)
            (array_sort (compare_by js_lt sortField asc) xs)) as Hin
    by (by rewrite array_sort_perm).
  unfold in_order. induction Hs as [|x ys Hs IH Hx]; constructor.
  - apply IH. by apply Forall_cons in Hin as [_ ?].
  - apply Forall_cons in Hin as [Px Pxs].
    rewrite Forall_forall in Hx, Pxs. apply Forall_forall. intros y Hy.
    exact (proj1 (Hle x y Px (Pxs y Hy)) (Hx y Hy)).
Qed.

(** What [Event.find] returns without options are stored events. *)
Lemma find_unsorted_stored (js_lt : value -> value -> bool) (filter : value)
    (w : world) (unsorted : list obj) :
  fst (Event.find js_lt filter None w) = Ok unsorted ->
  Forall (fun item => item ∈ events w) unsorted.
Proof.
  unfold Event.find. rewrite bind_run.
  pose proof (extract_query_keeps_store filter w) as Hdb.
  destruct (Event.extract_query filter w) as [[query|e] w1]; [|done].
  rewrite bind_run.
  pose proof (find_result_sublist "events" query w1) as Hsub.
  pose proof (find_records "events" query w1) as Hrec.
  destruct (memoryDbUtils.find "events" query w1) as [[all|e] w2]; [|done].
  simpl. intros [= <-].
  specialize (Hrec all (array_at_events w1) eq_refl).
  rewrite Hrec in Hsub. specialize (Hsub _ eq_refl).
  simpl in Hdb. rewrite Hdb in Hsub. apply Forall_forall. intros item Hin.
  eapply sublist_subseteq; [exact Hsub | exact Hin].
Qed.

(** X12: with a sort option and a comparison [<] that is a strict weak
    order on what the stored events hold in the sort field (asymmetric,
    and negatively transitive), [Event.find], when it returns, returns the
    records it would return without the option, rearranged so that no
    record is followed, however far behind, by one that belongs strictly
    before it: ascending, or descending when the direction is [-1]. *)
Theorem find_returns_sorted
    (js_lt : value -> value -> bool) (filter : value)
    (sortField : string) (direction : value) (w : world) :
  let fields := map (operand sortField) (events w) in
  (forall a b, a ∈ fields -> b ∈ fields ->
     js_lt a b = true -> js_lt b a = false) ->
  (forall a b c, a ∈ fields -> b ∈ fields -> c ∈ fields ->
     js_lt a c = true -> js_lt a b = true \/ js_lt b c = true) ->
  forall found,
    fst (Event.find js_lt filter (Some (sort_only sortField direction)) w)
      = Ok found ->
    (exists unsorted,
       fst (Event.find js_lt filter None w) = Ok unsorted /\
       found ≡ₚ unsorted) /\
    StronglySorted
      (fun earlier later =>
         if strict_eq direction (VNum (-1)%float)
         then js_lt (operand sortField earlier) (operand sortField later)
              = false
         else js_lt (operand sortField later) (operand sortField earlier)
              = false)
      found.
Proof.
  intros fields Hasym Hneg found. rewrite find_sorts_the_result.
  destruct (fst (Event.find js_lt filter None w)) as [unsorted|e] eqn:Hfind;
    simpl; [|done].
  intros ->%sort_by_returns.
  split; [exists unsorted; split; [done | apply array_sort_perm]|].
  pose proof (array_sort_in_order js_lt sortField
                (negb (strict_eq direction (VNum (-1)%float)))
                (events w) unsorted (conj Hasym Hneg)
                (find_unsorted_stored _ _ _ _ Hfind)) as Hs.
  eapply strongly_sorted_weaken; [|exact Hs].
  intros a b. cbv beta. by destruct (strict_eq direction (VNum (-1)%float)).
Qed.

Lemma find_returns_sorted_witness :
  StronglySorted
    (fun earlier later =>
       date_lt (operand "date" earlier) (operand "date" later) = false)
    (rev (events seeded)).
Proof.
  assert (events seeded ≡ₚ rev (events seeded) /\
          map (operand "date") (events seeded)
            = [VDate 1%nat 1700604800000; VDate 5%nat 1701209600004] /\
          fst (Event.find date_lt (VObject 100%nat [])
                 (Some (sort_only "date" (VNum (-1)%float))) seeded)
            = Ok (rev (events seeded))) as (_ & Hfields & Hfound).
  { split; [apply Permutation_rev|]. split; vm_compute; reflexivity. }
  refine (proj2 (find_returns_sorted date_lt (VObject 100%nat []) "date"
                   (VNum (-1)%float) seeded _ _ _ Hfound)).
  - cbv zeta. rewrite Hfields. intros a b Ha Hb.
    apply list_elem_of_In in Ha, Hb.
    destruct Ha as [<- | [<- | []]], Hb as [<- | [<- | []]];
      vm_compute; congruence.
  - cbv zeta. rewrite Hfields. intros a b c Ha Hb Hc.
    apply list_elem_of_In in Ha, Hb, Hc.
    destruct Ha as [<- | [<- | []]], Hb as [<- | [<- | []]],
      Hc as [<- | [<- | []]]; vm_compute; auto.
Defined.

Lemma get_prop_defined (v : value) (k : string) :
  is_nullish v = false -> get_prop v k = Ok (obj_get k (own_props v)).
Proof. by destruct v. Qed.

Lemma truthy_not_nullish (v : value) : truthy v = true -> is_nullish v = false.
Proof. by destruct v. Qed.

(** The query [Event.find] extracts is empty exactly when
    [extracts_nothing] says so; extracting allocates and does nothing
    else. *)
Lemma extract_query_keys (filter : value) (w : world) :
  is_nullish filter = false ->
  exists l props w',
    Event.extract_query filter w = (Ok (VObject l props), w') /\
    memoryDb w' = memoryDb w /\
    ((length props =? 0)%nat = extracts_nothing filter).
Proof.
  intros Hfilter. unfold Event.extract_query, extracts_nothing. run_M.
  rewrite !(get_prop_defined filter) by done. simpl.
  set (date := obj_get "date" (own_props filter)).
  set (or := obj_get "$or" (own_props filter)).
  destruct (truthy date) eqn:Hdate; simpl.
  - rewrite !(get_prop_defined date) by (by apply truthy_not_nullish). simpl.
    destruct (truthy (obj_get "$gte" (own_props date))
              || truthy (obj_get "$lte" (own_props date))); simpl.
    + eexists _, _, _. split; [reflexivity|]. split; [done|].
      rewrite andb_false_r. by destruct (truthy or).
    + eexists _, _, _. split; [reflexivity|]. split; [done|].
      rewrite andb_true_r. by destruct (truthy or).
  - eexists _, _, _. split; [reflexivity|]. split; [done|].
    rewrite andb_true_r. by destruct (truthy or).
Qed.

(** [Event.find], step by step, once the query is extracted. *)
Lemma find_steps (js_lt : value -> value -> bool) (filter : value)
    (options : option find_options) (w : world) (l : loc) (props : obj)
    (w1 : world) :
  Event.extract_query filter w = (Ok (VObject l props), w1) ->
  let page := fun events : list obj =>
    match options ≫= skip, options ≫= limit with
    | Some skip, Some limit => slice skip (skip + limit) events
    | _, _ => events
    end in
  Event.find js_lt filter options w =
  match fst (memoryDbUtils.find "events" (VObject l props) w1) with
  | Throw e => (Throw e, w1)
  | Ok found =>
      match options ≫= sort with
      | Some (sortField, direction) =>
          match sort_by js_lt sortField
                  (negb (strict_eq direction (VNum (-1)%float)))
                  (records found) with
          | Throw e => (Throw e, w1)
          | Ok sorted =>
              (Ok (page sorted),
               if bool_decide (is_Some (memoryDb w1 !! "events"))
                  && (length props =? 0)%nat
               then World (<["events" := sorted]> (memoryDb w1))
                          (next_loc w1) (ticks w1) (clock w1) (console w1)
               else w1)
          end
      | None => (Ok (page (records found)), w1)
      end
  end.
Proof.
  intros Hq page. unfold Event.find. rewrite bind_run, Hq, bind_run.
  pose proof (find_keeps_world "events" (VObject l props) w1) as Hsame.
  destruct (memoryDbUtils.find "events" (VObject l props) w1)
    as [[found|e] w2]; simpl in Hsame; subst w2; [|done].
  cbn [fst]. rewrite bind_run.
  destruct (options ≫= sort) as [[sortField direction]|].
  - rewrite bind_run. unfold lift at 1.
    destruct (sort_by js_lt sortField _ (records found)) as [sorted|e];
      [|done].
    rewrite bind_run. unfold collection_exists at 1. cbv beta iota.
    rewrite bind_run. cbn [own_props].
    destruct (bool_decide _ && _); unfold page;
      by destruct (options ≫= skip) as [sk|], (options ≫= limit) as [li|].
  - unfold mret at 1, M_ret at 1. cbv beta iota. unfold page.
    by destruct (options ≫= skip) as [sk|], (options ≫= limit) as [li|].
Qed.

Lemma sort_by_throws (js_lt : value -> value -> bool) (sortField : string)
    (asc : bool) (xs : list obj) :
  (2 <= length xs)%nat -> sortable sortField xs = false ->
  sort_by js_lt sortField asc xs
  = Throw (TypeError "Cannot convert object to primitive value").
Proof.
  intros Hmany H. unfold sort_by. rewrite H, orb_false_r.
  by destruct (Nat.ltb_spec (length xs) 2); [lia|].
Qed.

Lemma sort_by_sortable (js_lt : value -> value -> bool) (sortField : string)
    (asc : bool) (xs : list obj) :
  sortable sortField xs = true ->
  sort_by js_lt sortField asc xs
  = Ok (array_sort (compare_by js_lt sortField asc) xs).
Proof. intros H. unfold sort_by. by rewrite H, orb_true_r. Qed.

(** X13: [sort] works in place.  When the filter yields no condition (no
    truthy [$or], no date range) the array [Event.find] sorts is the stored
    collection itself: the call returns as soon as the sort fields of the
    stored events convert to primitives, and when it returns, the store
    holds the events in the order returned, a rearrangement of what it
    held, and the other collections as they were.  When the sort throws,
    when the filter yields a condition, or when no sort is asked for, the
    store is left as it was. *)
Theorem sorting_reorders_the_store
    (js_lt : value -> value -> bool) (filter : value)
    (sortField : string) (direction : value) (w : world) :
  is_nullish filter = false ->
  is_Some (memoryDb w !! "events") ->
  let after :=
    Event.find js_lt filter (Some (sort_only sortField direction)) w in
  (if extracts_nothing filter
   then (sortable sortField (events w) = true ->
           exists found, fst after = Ok found) /\
        match fst after with
        | Ok found =>
            events (snd after) = found /\ found ≡ₚ events w /\
            forall other, other <> "events" ->
              memoryDb (snd after) !! other = memoryDb w !! other
        | Throw _ => memoryDb (snd after) = memoryDb w
        end
   else memoryDb (snd after) = memoryDb w) /\
  memoryDb (snd (Event.find js_lt filter None w)) = memoryDb w.
Proof.
  intros Hfilter Hstored after.
  destruct (extract_query_keys filter w Hfilter)
    as (l & props & w1 & Hq & Hdb & Hkeys).
  split.
  - unfold after. rewrite (find_steps _ _ _ _ _ _ _ Hq).
    cbn [sort_only mbind option_bind sort skip limit].
    destruct (extracts_nothing filter) eqn:Hnothing.
    + apply Nat.eqb_eq, nil_length_inv in Hkeys. subst props.
      rewrite find_reads by apply array_at_events.
      cbn [fst truthy negb own_props length Nat.eqb orb records].
      rewrite Hdb. fold (events w).
      rewrite bool_decide_true by done. cbn [andb].
      split.
      * intros Hsortable. rewrite sort_by_sortable by exact Hsortable.
        eauto.
      * destruct (sort_by js_lt sortField _ (events w)) as [sorted|e] eqn:E;
          cbn [fst snd]; [|exact Hdb].
        apply sort_by_returns in E. subst sorted.
        unfold events at 1. cbn [memoryDb]. rewrite lookup_insert_eq.
        split; [done|]. split; [apply array_sort_perm|].
        intros other Hne. by rewrite lookup_insert_ne.
    + rewrite Hkeys, andb_false_r.
      destruct (fst (memoryDbUtils.find "events" (VObject l props) w1));
        [|done].
      by destruct (sort_by js_lt sortField _ _).
  - rewrite (find_steps _ _ _ _ _ _ _ Hq).
    by destruct (fst (memoryDbUtils.find "events" (VObject l props) w1)).
Qed.

Lemma sorting_reorders_the_store_witness :
  exists found,
    fst (Event.find date_lt pending
           (Some (sort_only "date" (VNum (-1)%float))) seeded) = Ok found.
Proof.
  assert (is_Some (memoryDb seeded !! "events")) as Hstored
    by (vm_compute; eauto).
  pose proof (sorting_reorders_the_store date_lt pending "date"
                (VNum (-1)%float) seeded eq_refl Hstored) as H.
  cbv zeta in H.
  assert (extracts_nothing pending = true) as Hn by reflexivity.
  rewrite Hn in H. cbv iota in H. destruct H as [[Hreturns _] _].
  apply Hreturns. vm_compute. reflexivity.
Defined.

(* ===================================================================== *)
(** ** The backend selector, in general *)
(* ===================================================================== *)

(** Reads a payload field off the record [create] builds. *)
Ltac field_of_created :=
  unfold created_item; rewrite !obj_get_set_ne by done;
  rewrite obj_get_spread.

(** What [connectDB] does to the store, in every branch. *)
Lemma connectDB_seeded_events (e : environment) (w : world) :
  exists w',
    connectDB e w = (Ok tt, w') /\
    (forall other, other <> "events" ->
       memoryDb w' !! other = memoryDb w !! other) /\
    if seeds_samples e then
      events w'
      = (events w
         ++ [sample_item tech_conference week_ms w;
             sample_item music_festival (2 * week_ms)
               (after_sample tech_conference week_ms w)])%list
    else memoryDb w' = memoryDb w.
Proof.
  destruct (connectDB_store e w) as (w' & Hrun & Hdb).
  exists w'. split; [exact Hrun|]. unfold events. rewrite Hdb.
  destruct (seeds_samples e); [|done]. split.
  - intros other Hne. by rewrite !others_after_sample.
  - set (w1 := after_sample tech_conference week_ms w).
    change (events (after_sample music_festival (2 * week_ms) w1)
            = (events w ++ [sample_item tech_conference week_ms w;
                            sample_item music_festival (2 * week_ms) w1])
              %list).
    rewrite (events_after_sample music_festival).
    unfold w1. rewrite (events_after_sample tech_conference).
    by rewrite <- app_assoc.
Qed.


Lemma find_app_list {A} (p : A -> bool) (xs ys : list A) :
  List.find p (xs ++ ys) =
  match List.find p xs with
  | Some y => Some y
  | None => List.find p ys
  end.
Proof.
  induction xs as [|x xs IH]; simpl; [done|]. by destruct (p x).
Qed.

(** X15: when the clock returns the same reading to the two [create]
    calls of the seeding, both samples get the same identifier, and
    [findById] with it never returns the Music Festival: it returns an
    older record carrying that identifier if there is one, and the Tech
    Conference otherwise. *)
Theorem seeded_identifiers_collide (e : environment) (w : world) :
  seeds_samples e = true ->
  clock w (1 + ticks w)%nat = clock w (5 + ticks w)%nat ->
  let id := VStr (pretty (clock w (1 + ticks w)%nat)) in
  let w' := snd (connectDB e w) in
  exists first second,
    events w' = (events w ++ [first; second])%list /\
    obj_get "title" first = VStr "Tech Conference 2025" /\
    obj_get "title" second = VStr "Music Festival" /\
    obj_get "_id" first = id /\ obj_get "_id" second = id /\
    fst (memoryDbUtils.findById "events" id w')
      = Ok (Some (default first (List.find (id_is id) (events w)))).
Proof.
  intros Hseeds Htie id w'.
  destruct (connectDB_seeded_events e w) as (w0 & Hrun & _ & Hseed).
  rewrite Hseeds in Hseed. unfold w'. rewrite Hrun. cbn [snd].
  set (first := sample_item tech_conference week_ms w) in *.
  set (second := sample_item music_festival (2 * week_ms)
                   (after_sample tech_conference week_ms w)) in *.
  assert (obj_get "_id" first = id) as Hid1
    by (unfold first, sample_item; by rewrite created_item_id).
  assert (obj_get "_id" second = id) as Hid2.
  { unfold second, sample_item. rewrite created_item_id by done.
    unfold id. cbn [clock ticks after_sample]. by rewrite Htie. }
  exists first, second. split; [exact Hseed|].
  split; [unfold first, sample_item; by field_of_created|].
  split; [unfold second, sample_item; by field_of_created|].
  split; [exact Hid1|]. split; [exact Hid2|].
  rewrite findById_reads by apply array_at_events.
  cbn [fst]. fold (events w0). rewrite Hseed.
  rewrite find_app_list.
  destruct (List.find (id_is id) (events w)); [done|].
  simpl. unfold id_is at 1. rewrite Hid1. unfold id. simpl.
  by rewrite String.eqb_refl.
Qed.

Lemma seeded_identifiers_collide_witness :
  exists first second,
    events (snd (connectDB development (boot (frozen_clock 1000))))
      = [first; second] /\
    obj_get "title" second = VStr "Music Festival" /\
    fst (memoryDbUtils.findById "events" (VStr "1000")
           (snd (connectDB development (boot (frozen_clock 1000)))))
      = Ok (Some first).
Proof.
  destruct (seeded_identifiers_collide development (boot (frozen_clock 1000))
              eq_refl eq_refl)
    as (first & second & Hev & _ & Ht2 & _ & _ & Hfind).
  exists first, second. repeat split; assumption.
Defined.

(* ===================================================================== *)
(** ** The request handlers *)
(* ===================================================================== *)

(** Steps a computation whose next call is known to return. *)
Ltac step_with H := rewrite bind_run, H; cbv beta iota.

Lemma try_catch_returns {A} (body : M A) (handler : error -> M A)
    (a : A) (w w' : world) :
  body w = (Ok a, w') -> try_catch body handler w = (Ok a, w').
Proof. intros H. unfold try_catch. by rewrite H. Qed.

Lemma try_catch_throws {A} (body : M A) (handler : error -> M A)
    (e : error) (w w' : world) :
  body w = (Throw e, w') -> try_catch body handler w = handler e w'.
Proof. intros H. unfold try_catch. by rewrite H. Qed.

Lemma get_prop_nullish (v : value) (k : string) :
  is_nullish v = true -> exists e, get_prop v k = Throw e.
Proof. destruct v; try done; by eexists. Qed.

Lemma obj_lookup_copy (k : string) (o : obj) :
  obj_lookup k (spread [] o) = obj_lookup k o.
Proof. rewrite obj_lookup_spread. by destruct (obj_lookup k o). Qed.

(** X16: for a caller with a [req.user], [createEvent] answers 201 with the
    record it appended to the events.  The record's [organizer] is the
    caller's [id] and its [posterUrl] the path of the uploaded file (or
    [undefined]), whatever the body says under these keys; its [_id],
    though, is the body's when the body carries one. *)
Theorem createEvent_stores_the_callers_event (req : request) (w : world) :
  is_nullish (user req) = false ->
  exists event w',
    createEvent req w = (Ok (EventReply 201 event), w') /\
    events w' = (events w ++ [event])%list /\
    obj_get "organizer" event = obj_get "id" (own_props (user req)) /\
    obj_get "posterUrl" event = posterUrl_of req /\
    obj_get "_id" event
      = default (VStr (pretty (clock w (ticks w))))
                (obj_lookup "_id" (own_props (body req))).
Proof.
  intros Huser. unfold createEvent.
  eexists _, _. split.
  { apply try_catch_returns. rewrite bind_run. unfold alloc at 1.
    cbv beta iota. unfold lift. rewrite bind_run, (get_prop_defined _ _ Huser).
    cbv beta iota. unfold Event.create.
    rewrite bind_run, create_returns by apply array_at_events.
    reflexivity. }
  cbn [memoryDb]. unfold events at 1. cbn [memoryDb].
  rewrite collection_after_store. split; [done|].
  unfold created_item. cbn [own_props next_loc ticks clock].
  rewrite !obj_get_set_ne by done. rewrite !obj_get_spread.
  rewrite !obj_lookup_set. cbn [String.eqb Ascii.eqb Bool.eqb].
  simpl. rewrite obj_lookup_copy. repeat split.
Qed.

Lemma createEvent_stores_the_callers_event_witness :
  exists event w',
    createEvent (Request (VObject 100%nat [("title", VStr "Quiz Night");
                                           ("organizer", VStr "someone else")])
                         (Some "quiz.png") a_user VUndefined) seeded
      = (Ok (EventReply 201 event), w') /\
    obj_get "organizer" event = VStr "u1" /\
    obj_get "posterUrl" event = VStr "/uploads/quiz.png".
Proof.
  destruct (createEvent_stores_the_callers_event
              (Request (VObject 100%nat [("title", VStr "Quiz Night");
                                         ("organizer", VStr "someone else")])
                       (Some "quiz.png") a_user VUndefined) seeded eq_refl)
    as (event & w' & Hrun & _ & Horg & Hposter & _).
  exists event, w'. auto.
Defined.


Lemma findOneAndUpdate_runs (filter update : value) (w : world) :
  is_nullish filter = false ->
  Event.findOneAndUpdate filter update w =
  let id := obj_get "_id" (own_props filter) in
  match List.find (id_is id) (default [] (memoryDb w !! "events")) with
  | Some _ => memoryDbUtils.update "events" id update w
  | None => (Ok None, w)
  end.
Proof.
  intros Hf. unfold Event.findOneAndUpdate, lift.
  rewrite bind_run, (get_prop_defined _ _ Hf). cbv beta iota.
  rewrite bind_run, findById_reads by apply array_at_events.
  cbv beta iota zeta.
  by destruct (List.find _ _).
Qed.

Lemma findOneAndDelete_runs (filter : value) (w : world) :
  is_nullish filter = false ->
  Event.findOneAndDelete filter w =
  memoryDbUtils.delete "events" (obj_get "_id" (own_props filter)) w.
Proof.
  intros Hf. unfold Event.findOneAndDelete, lift.
  by rewrite bind_run, (get_prop_defined _ _ Hf).
Qed.

(** X17: without a [req.user] the three mutating handlers answer 500 and
    leave the store as it was: reading [req.user.id] throws before any
    model is called. *)
Theorem handlers_need_a_user (req : request) (w : world) :
  is_nullish (user req) = true ->
  (exists text w', createEvent req w = (Ok (MessageReply 500 text), w') /\
                   memoryDb w' = memoryDb w) /\
  (exists text w', updateEvent req w = (Ok (MessageReply 500 text), w') /\
                   memoryDb w' = memoryDb w) /\
  (exists text w', deleteEvent req w = (Ok (MessageReply 500 text), w') /\
                   memoryDb w' = memoryDb w).
Proof.
  intros Huser. destruct (get_prop_nullish _ "id" Huser) as [e He].
  repeat split.
  - eexists _, _. split.
    + unfold createEvent. erewrite try_catch_throws; [reflexivity|].
      rewrite bind_run. unfold alloc at 1. cbv beta iota. unfold lift.
      rewrite bind_run, He. reflexivity.
    + reflexivity.
  - eexists _, _. split.
    + unfold updateEvent. erewrite try_catch_throws; [reflexivity|].
      rewrite bind_run. unfold alloc at 1. cbv beta iota.
      rewrite bind_run. unfold alloc at 1. cbv beta iota. unfold lift.
      rewrite bind_run, He. reflexivity.
    + reflexivity.
  - eexists _, _. split.
    + unfold deleteEvent. erewrite try_catch_throws; [reflexivity|].
      rewrite bind_run. unfold alloc at 1. cbv beta iota. unfold lift.
      rewrite bind_run, He. reflexivity.
    + reflexivity.
Qed.

Lemma handlers_need_a_user_witness :
  exists text w',
    deleteEvent (Request VUndefined None VUndefined (VStr "1700000000001"))
                seeded = (Ok (MessageReply 500 text), w') /\
    memoryDb w' = memoryDb seeded.
Proof.
  apply (handlers_need_a_user
           (Request VUndefined None VUndefined (VStr "1700000000001")) seeded).
  reflexivity.
Defined.

(** The worlds in which [updateEvent] and [deleteEvent] call the model. *)
Lemma updateEvent_runs (req : request) (w : world) :
  is_nullish (user req) = false ->
  let update :=
    VObject (next_loc w)
      (if truthy (posterUrl_of req)
       then obj_set "posterUrl" (posterUrl_of req)
              (spread [] (own_props (body req)))
       else spread [] (own_props (body req))) in
  let w1 := allocated (allocated (allocated w)) in
  updateEvent req w =
  match List.find (id_is (params_id req)) (events w) with
  | Some _ =>
      match memoryDbUtils.update "events" (params_id req) update w1 with
      | (Ok (Some event), w') => (Ok (EventReply 200 event), w')
      | (Ok None, w') => (Ok (MessageReply 404 "Event not found"), w')
      | (Throw e, w') => server_error e w'
      end
  | None => (Ok (MessageReply 404 "Event not found"), w1)
  end.
Proof.
  intros Huser update w1. unfold updateEvent, try_catch.
  rewrite bind_run. unfold alloc at 1. cbv beta iota.
  rewrite bind_run. unfold alloc at 1. cbv beta iota. unfold lift at 1.
  rewrite bind_run, (get_prop_defined _ _ Huser). cbv beta iota.
  rewrite bind_run. unfold alloc at 1. cbv beta iota.
  rewrite bind_run, findOneAndUpdate_runs by done. cbv zeta.
  cbn [own_props memoryDb next_loc]. 
  change (obj_get "_id" [("_id", params_id req);
                       ("organizer", obj_get "id" (own_props (user req)))])
    with (params_id req).
  fold (events w). fold update.
  destruct (List.find (id_is (params_id req)) (events w)); [|done].
  match goal with
  | |- context [memoryDbUtils.update "events" (params_id req) update ?W] =>
      change W with w1
  end.
  by destruct (memoryDbUtils.update "events" (params_id req) update w1)
    as [[[event|]|e] w'].
Qed.

Lemma deleteEvent_runs (req : request) (w : world) :
  is_nullish (user req) = false ->
  deleteEvent req w =
  match memoryDbUtils.delete "events" (params_id req) (allocated w) with
  | (Ok (Some _), w') => (Ok (MessageReply 200 "Deleted"), w')
  | (Ok None, w') => (Ok (MessageReply 404 "Event not found"), w')
  | (Throw e, w') => server_error e w'
  end.
Proof.
  intros Huser. unfold deleteEvent, try_catch.
  rewrite bind_run. unfold alloc at 1. cbv beta iota. unfold lift at 1.
  rewrite bind_run, (get_prop_defined _ _ Huser). cbv beta iota.
  rewrite bind_run, findOneAndDelete_runs by done.
  cbn [own_props].
  change (obj_get "_id" [("_id", params_id req);
                       ("organizer", obj_get "id" (own_props (user req)))])
    with (params_id req).
  match goal with
  | |- context [memoryDbUtils.delete "events" (params_id req) ?W] =>
      change W with (allocated w)
  end.
  by destruct (memoryDbUtils.delete "events" (params_id req) (allocated w))
    as [[[event|]|e] w'].
Qed.

(** X18: for an identifier that no event carries, [updateEvent] and
    [deleteEvent] answer 404 "Event not found" and leave the store as it
    was. *)
Theorem unknown_event_is_not_found (req : request) (w : world) :
  is_nullish (user req) = false ->
  fst (memoryDbUtils.findById "events" (params_id req) w) = Ok None ->
  (exists w', updateEvent req w
                = (Ok (MessageReply 404 "Event not found"), w') /\
              memoryDb w' = memoryDb w) /\
  (exists w', deleteEvent req w
                = (Ok (MessageReply 404 "Event not found"), w') /\
              memoryDb w' = memoryDb w).
Proof.
  intros Huser Hnone.
  rewrite findById_reads in Hnone by apply array_at_events.
  simpl in Hnone.
  injection Hnone as Hnone. split.
  - eexists. rewrite updateEvent_runs by done. cbv zeta.
    unfold events. rewrite Hnone. done.
  - eexists. rewrite deleteEvent_runs by done.
    rewrite delete_missing;
      [done | apply array_at_events | by apply find_None_findIndex].
Qed.

Lemma unknown_event_is_not_found_witness :
  exists w', deleteEvent (Request VUndefined None a_user (VStr "404")) seeded
               = (Ok (MessageReply 404 "Event not found"), w') /\
             memoryDb w' = memoryDb seeded.
Proof.
  apply (unknown_event_is_not_found
           (Request VUndefined None a_user (VStr "404")) seeded eq_refl).
  vm_compute. reflexivity.
Defined.

(** X19: for an identifier that exactly one event carries, [deleteEvent]
    answers 200 "Deleted" and removes that event, whoever the caller is; the
    same request sent again answers 404 and changes nothing. *)
Theorem deleteEvent_twice (req : request) (old : obj) (w : world) :
  is_nullish (user req) = false ->
  fst (memoryDbUtils.findById "events" (params_id req) w) = Ok (Some old) ->
  (length (List.filter (id_is (params_id req)) (events w)) <= 1)%nat ->
  exists w1 w2,
    deleteEvent req w = (Ok (MessageReply 200 "Deleted"), w1) /\
    S (length (events w1)) = length (events w) /\
    fst (memoryDbUtils.findById "events" (params_id req) w1) = Ok None /\
    deleteEvent req w1 = (Ok (MessageReply 404 "Event not found"), w2) /\
    memoryDb w2 = memoryDb w1.
Proof.
  intros Huser Hfound Hone.
  rewrite findById_reads in Hfound by apply array_at_events.
  simpl in Hfound. injection Hfound as Hfound.
  destruct (find_Some_findIndex _ _ _ Hfound) as (i & Hi & Hold & Hp).
  pose proof (findIndex_delete_unique _ _ _ Hi Hone) as Hgone.
  eexists _, _. split; [|split; [|split; [|split]]].
  - rewrite deleteEvent_runs by done.
    rewrite (delete_found "events" (params_id req) (allocated w) i
               (array_at_events _) Hi).
    cbn [allocated memoryDb]. rewrite Hold. reflexivity.
  - unfold events. cbn [memoryDb]. rewrite collection_after_store.
    rewrite length_delete by eauto. apply lookup_lt_Some in Hold.
    cbn [allocated memoryDb] in *. lia.
  - rewrite findById_reads by apply array_at_events. cbn [memoryDb fst].
    rewrite collection_after_store. f_equal.
    by apply findIndex_None.
  - rewrite deleteEvent_runs by done.
    rewrite delete_missing; [reflexivity | apply array_at_events |].
    cbn [allocated memoryDb]. by rewrite collection_after_store.
  - reflexivity.
Qed.

Lemma deleteEvent_twice_witness :
  exists w1 w2,
    deleteEvent (Request VUndefined None a_user (VStr "1700000000001"))
                seeded = (Ok (MessageReply 200 "Deleted"), w1) /\
    deleteEvent (Request VUndefined None a_user (VStr "1700000000001")) w1
      = (Ok (MessageReply 404 "Event not found"), w2).
Proof.
  destruct (deleteEvent_twice
              (Request VUndefined None a_user (VStr "1700000000001"))
              stored_tech_conference seeded eq_refl)
    as (w1 & w2 & H1 & _ & _ & H2 & _).
  - vm_compute. reflexivity.
  - vm_compute. lia.
  - exists w1, w2. auto.
Defined.




(* ===================================================================== *)
(** ** Listing *)
(* ===================================================================== *)

Lemma listEvents_filter_runs (q category status organizer : value)
    (dateFrom dateTo : option Z) (w : world) :
  exists l props w1,
    listEvents_filter q category status organizer dateFrom dateTo w
      = (Ok (VObject l props), w1) /\
    memoryDb w1 = memoryDb w /\
    (truthy (obj_get "$or" props) = true ->
       or_list (obj_get "$or" props) = true) /\
    extracts_nothing (VObject l props)
      = negb (truthy q) && bool_decide (dateFrom = None)
        && bool_decide (dateTo = None).
Proof.
  unfold listEvents_filter. run_M.
  destruct (truthy q), (truthy category), (truthy status), (truthy organizer),
    dateFrom as [from|], dateTo as [to|];
    eexists _, _, _; (split; [reflexivity|]); (split; [reflexivity|]);
    (split; [|reflexivity]); first [intros _; reflexivity | discriminate].
Qed.

Lemma filter_array_total {A} (f : A -> result bool) (xs : list A) :
  (forall x, x ∈ xs -> exists b, f x = Ok b) ->
  exists ys, filter_array f xs = Ok ys.
Proof.
  induction xs as [|x xs IH]; intros Hf; simpl; [by eexists|].
  destruct (Hf x) as [b ->]; [left|]. simpl.
  destruct IH as [ys ->]; [intros y Hy; apply Hf; by right|].
  simpl. by eexists.
Qed.

Lemma condition_holds_total (item : obj) (condition : value) :
  is_nullish condition = false ->
  exists b, memoryDbUtils.condition_holds item condition = Ok b.
Proof.
  intros Hc. unfold memoryDbUtils.condition_holds.
  assert (Object_keys condition = Ok (map fst (own_props condition))) as ->
    by (by destruct condition).
  simpl. eexists. by apply every_total.
Qed.

Lemma some_defined {A} (f : A -> result bool) (xs : list A) :
  (forall x, x ∈ xs -> exists b, f x = Ok b) ->
  exists b, some f xs = Ok b.
Proof.
  induction xs as [|x xs IH]; intros Hf; simpl; [by eexists|].
  destruct (Hf x) as [b ->]; [left|]. simpl. destruct b; [by eexists|].
  apply IH. intros y Hy. apply Hf. by right.
Qed.

Lemma every_defined {A} (f : A -> result bool) (xs : list A) :
  (forall x, x ∈ xs -> exists b, f x = Ok b) ->
  exists b, every f xs = Ok b.
Proof.
  induction xs as [|x xs IH]; intros Hf; simpl; [by eexists|].
  destruct (Hf x) as [b ->]; [left|]. simpl. destruct b; [|by eexists].
  apply IH. intros y Hy. apply Hf. by right.
Qed.

(** A query whose [$or], if it has one, is a list of conditions is
    evaluated without an exception. *)
Lemma matches_total (l : loc) (props : obj) (item : obj) :
  (has_key "$or" props = true -> or_list (obj_get "$or" props) = true) ->
  exists b, memoryDbUtils.matches (VObject l props) item = Ok b.
Proof.
  intros Hor. unfold memoryDbUtils.matches. simpl.
  apply every_defined. intros key Hin. unfold memoryDbUtils.key_holds.
  destruct (String.eqb key "$or") eqn:Ek; [|by eexists].
  apply String.eqb_eq in Ek; subst key. simpl.
  assert (has_key "$or" props = true) as Hhas.
  { unfold has_key. apply existsb_exists.
    apply list_elem_of_In, in_map_iff in Hin as ([k v] & Hk & Hin).
    simpl in Hk; subst k. exists ("$or", v). split; [done|].
    apply String.eqb_refl. }
  specialize (Hor Hhas).
  destruct (obj_get "$or" props) as [| | | | | | |lo conditions];
    try discriminate.
  apply some_defined. intros condition Hc. apply condition_holds_total.
  simpl in Hor. rewrite forallb_forall in Hor.
  apply list_elem_of_In, Hor in Hc. by destruct (is_nullish condition).
Qed.

(** What [Event.find] extracts carries the filter's [$or], if any. *)
Lemma extract_query_or (filter : value) (w : world) :
  is_nullish filter = false ->
  exists l props w',
    Event.extract_query filter w = (Ok (VObject l props), w') /\
    (has_key "$or" props = true ->
       obj_get "$or" props = obj_get "$or" (own_props filter) /\
       truthy (obj_get "$or" (own_props filter)) = true).
Proof.
  intros Hfilter. unfold Event.extract_query. run_M.
  rewrite !(get_prop_defined filter) by done. simpl.
  set (date := obj_get "date" (own_props filter)).
  set (or := obj_get "$or" (own_props filter)).
  destruct (truthy date) eqn:Hdate; simpl.
  - rewrite !(get_prop_defined date) by (by apply truthy_not_nullish). simpl.
    destruct (truthy (obj_get "$gte" (own_props date))
              || truthy (obj_get "$lte" (own_props date))); simpl;
      eexists _, _, _; (split; [reflexivity|]);
      destruct (truthy or) eqn:Hor; simpl; try done;
      intros _; (split; [|done]); unfold obj_get;
      rewrite ?obj_lookup_set; simpl; by rewrite ?String.eqb_refl.
  - eexists _, _, _. split; [reflexivity|].
    destruct (truthy or) eqn:Hor; simpl; try done;
      intros _; (split; [|done]); unfold obj_get; simpl;
      by rewrite ?String.eqb_refl.
Qed.

(** Without options [Event.find] returns, in store order, some of the
    stored events - all of them when the filter yields no condition - and
    leaves the store as it was, provided the filter's [$or], if truthy, is
    a list of conditions. *)
Lemma find_unsorted_runs (js_lt : value -> value -> bool) (l : loc)
    (props : obj) (w : world) :
  (truthy (obj_get "$or" props) = true ->
     or_list (obj_get "$or" props) = true) ->
  exists found w2,
    Event.find js_lt (VObject l props) None w = (Ok found, w2) /\
    memoryDb w2 = memoryDb w /\
    sublist found (events w) /\
    (extracts_nothing (VObject l props) = true -> found = events w).
Proof.
  intros Hor.
  destruct (extract_query_keys (VObject l props) w eq_refl)
    as (lq & query & w1 & Hq & Hdb & Hkeys).
  destruct (extract_query_or (VObject l props) w eq_refl)
    as (lq' & query' & w1' & Hq' & Hquery).
  rewrite Hq in Hq'. injection Hq' as <- <- <-.
  rewrite (find_steps _ _ _ _ _ _ _ Hq). simpl (None ≫= _).
  rewrite find_reads by apply array_at_events.
  cbn [fst truthy negb orb own_props]. rewrite Hdb. fold (events w).
  rewrite <- Hkeys. destruct (length query =? 0)%nat.
  - exists (events w), w1. by repeat split.
  - destruct (filter_array_total (memoryDbUtils.matches (VObject lq query))
                (events w)) as [found Hfound].
    { intros item _. apply matches_total. intros Hhas.
      destruct (Hquery Hhas) as [-> Htruthy]. by apply Hor. }
    exists found, w1. rewrite Hfound. cbn [fmap result_fmap records].
    repeat split; [done | | done]. by eapply filter_array_sublist.
Qed.

Lemma names_organizer_enriched (event : obj) (l : loc) :
  names_organizer event
    (obj_set "organizer"
       (VObject l [("name", if truthy (obj_get "organizer" event)
                            then obj_get "organizer" event
                            else VStr "Organizer")])
       (spread [] event)).
Proof.
  split.
  - exists l. apply obj_get_set_eq.
  - intros key Hkey. rewrite obj_get_set_ne by done. apply obj_get_copy.
Qed.

Lemma map_names_runs (xs : list obj) : forall w,
  exists ys w',
    map_M with_organizer_name xs w = (Ok ys, w') /\
    memoryDb w' = memoryDb w /\
    Forall2 names_organizer xs ys.
Proof.
  induction xs as [|x xs IH]; intros w; simpl.
  - eexists _, _. repeat split. constructor.
  - rewrite bind_run. unfold with_organizer_name at 1. run_M.
    match goal with
    | |- context [map_M with_organizer_name xs ?W] =>
        destruct (IH W) as (ys & w' & Hrun & Hdb & Hys)
    end.
    rewrite Hrun. eexists _, _. split; [reflexivity|]. split; [done|].
    constructor; [apply names_organizer_enriched | done].
Qed.

(** How [listEvents] runs: it answers a page, unless the sort throws. *)
Lemma listEvents_runs (js_lt : value -> value -> bool) (rq : query.t)
    (w : world) :
  let skip := (query.page rq - 1) * query.limit rq in
  exists found,
    sublist found (events w) /\
    (plain rq = true -> found = events w) /\
    match listing_order js_lt rq found with
    | Ok shown =>
        exists listed w',
          listEvents js_lt rq w =
            (Ok (ListReply 200 listed
                   (Pagination (query.page rq)
                      (ceil_quotient (Z.of_nat (length shown))
                                     (query.limit rq))
                      (length shown)
                      (skip + query.limit rq <? Z.of_nat (length shown))
                      (1 <? query.page rq))), w') /\
          Forall2 names_organizer
            (slice skip (skip + query.limit rq) shown) listed /\
          memoryDb w' =
            (if negb (String.eqb (query.sortBy rq) "")
                && bool_decide (is_Some (memoryDb w !! "events"))
                && plain rq
             then <["events" := shown]> (memoryDb w)
             else memoryDb w)
    | Throw e =>
        exists w',
          listEvents js_lt rq w = (Ok (MessageReply 500 (message e)), w') /\
          memoryDb w' = memoryDb w
    end.
Proof.
  intros skip. unfold listEvents.
  set (w0 := World (memoryDb w) (next_loc w) (ticks w) (clock w)
                   (console w ++ ["listEvents called with query:"])%list).
  destruct (listEvents_filter_runs (query.q rq) (query.category rq)
              (query.status rq) (query.organizer rq) (query.dateFrom rq)
              (query.dateTo rq) w0)
    as (l & props & w1 & Hfilter & Hdb1 & Hor & Hplain).
  set (w2 := World (memoryDb w1) (S (next_loc w1)) (ticks w1) (clock w1)
                   ((console w1 ++ ["Filter:"]) ++ ["Sort:"])%list).
  destruct (find_unsorted_runs js_lt l props w2 Hor)
    as (found0 & w3 & Hfind0 & Hdb3 & _ & _).
  destruct (find_unsorted_runs js_lt l props w3 Hor)
    as (found & w4 & Hfind & Hdb4 & Hsub & Hall).
  assert (memoryDb w3 = memoryDb w) as Hdb3'
    by (rewrite Hdb3; unfold w2; cbn [memoryDb]; by rewrite Hdb1).
  assert (memoryDb w4 = memoryDb w) as Hdb by (by rewrite Hdb4).
  assert (events w3 = events w) as Hev by (unfold events; by rewrite Hdb3').
  exists found. split; [by rewrite <- Hev|]. split.
  { intros Hp. rewrite <- Hev. apply Hall. rewrite Hplain. exact Hp. }
  set (reorders := negb (String.eqb (query.sortBy rq) "")
                   && bool_decide (is_Some (memoryDb w !! "events"))
                   && plain rq).
  set (rest := fun allEvents : list obj =>
         listed ← map_M with_organizer_name
                    (slice skip (skip + query.limit rq) allEvents);
         console_log "Found events:";;
         console_log "Total count:";;
         mret (ListReply 200 listed
                 (Pagination (query.page rq)
                    (ceil_quotient (Z.of_nat (length allEvents))
                                   (query.limit rq))
                    (length allEvents)
                    (skip + query.limit rq <? Z.of_nat (length allEvents))
                    (1 <? query.page rq)))).
  set (sorting :=
         if negb (String.eqb (query.sortBy rq) "") then
           sorted ← lift (sort_by js_lt (query.sortBy rq)
                            (negb (String.eqb (query.sortOrder rq) "desc"))
                            found);
           stored ← collection_exists "events";
           (if stored &&
               (negb (truthy (query.q rq)) &&
                bool_decide (query.dateFrom rq = None) &&
                bool_decide (query.dateTo rq = None))
            then store_collection "events" sorted else mret tt);;
           mret sorted
         else mret found).
  assert (forall handler,
            try_catch
              (console_log "listEvents called with query:";;
               filter ← listEvents_filter (query.q rq) (query.category rq)
                          (query.status rq) (query.organizer rq)
                          (query.dateFrom rq) (query.dateTo rq);
               console_log "Filter:";;
               alloc;;
               console_log "Sort:";;
               detached (Event.find js_lt filter None);;
               allEvents ← Event.find js_lt filter None;
               allEvents ←
                 (if negb (String.eqb (query.sortBy rq) "") then
                    sorted ← lift (sort_by js_lt (query.sortBy rq)
                                     (negb (String.eqb (query.sortOrder rq)
                                                       "desc"))
                                     allEvents);
                    stored ← collection_exists "events";
                    (if stored &&
                        (negb (truthy (query.q rq)) &&
                         bool_decide (query.dateFrom rq = None) &&
                         bool_decide (query.dateTo rq = None))
                     then store_collection "events" sorted else mret tt);;
                    mret sorted
                  else mret allEvents);
               rest allEvents) handler w
            = try_catch (allEvents ← sorting; rest allEvents) handler w4)
    as Hhead.
  { intros handler. unfold try_catch.
    rewrite bind_run. unfold console_log at 1. cbv beta iota. fold w0.
    rewrite bind_run, Hfilter. cbv beta iota.
    rewrite bind_run. unfold console_log at 1. cbv beta iota.
    rewrite bind_run. unfold alloc at 1. cbv beta iota.
    rewrite bind_run. unfold console_log at 1. cbv beta iota.
    cbn [memoryDb next_loc ticks clock console]. fold w2.
    rewrite bind_run. unfold detached at 1. rewrite Hfind0. cbn [snd].
    rewrite bind_run, Hfind. cbv beta iota. reflexivity. }
  unfold rest in Hhead. rewrite Hhead. clear Hhead. fold rest.
  assert (sorting w4 =
          match listing_order js_lt rq found with
          | Ok shown =>
              (Ok shown,
               if reorders
               then World (<["events" := shown]> (memoryDb w4)) (next_loc w4)
                          (ticks w4) (clock w4) (console w4)
               else w4)
          | Throw e => (Throw e, w4)
          end) as Hsort.
  { unfold sorting, reorders, listing_order, plain.
    destruct (String.eqb (query.sortBy rq) ""); [done|].
    cbn [negb andb]. rewrite bind_run. unfold lift at 1.
    destruct (sort_by js_lt (query.sortBy rq) _ found) as [sorted|e];
      [|done].
    rewrite bind_run. unfold collection_exists at 1. cbv beta iota.
    rewrite Hdb. rewrite bind_run.
    destruct (bool_decide (is_Some (memoryDb w !! "events"))); [|done].
    cbn [andb].
    destruct (negb (truthy (query.q rq))
              && bool_decide (query.dateFrom rq = None)
              && bool_decide (query.dateTo rq = None));
      unfold store_collection, mret, M_ret; cbv beta iota;
      by rewrite ?Hdb. }
  destruct (listing_order js_lt rq found) as [shown|e].
  - set (w5 := if reorders
               then World (<["events" := shown]> (memoryDb w4)) (next_loc w4)
                          (ticks w4) (clock w4) (console w4)
               else w4) in *.
    destruct (map_names_runs (slice skip (skip + query.limit rq) shown) w5)
      as (listed & w6 & Hmap & Hdb6 & Hnames).
    exists listed. eexists. split; [|split; [exact Hnames|]].
    + apply try_catch_returns. rewrite bind_run, Hsort. cbv beta iota.
      unfold rest. rewrite bind_run, Hmap. cbv beta iota. reflexivity.
    + cbn [memoryDb]. rewrite Hdb6. unfold w5.
      destruct reorders; cbn [memoryDb]; by rewrite Hdb.
  - eexists. split.
    + erewrite try_catch_throws; [|by rewrite bind_run, Hsort].
      reflexivity.
    + cbn [memoryDb]. exact Hdb.
Qed.


(** The order of a listing whose sort returns. *)
Lemma listing_order_returns (js_lt : value -> value -> bool) (rq : query.t)
    (found shown : list obj) :
  listing_order js_lt rq found = Ok shown ->
  shown =
    (if String.eqb (query.sortBy rq) "" then found
     else array_sort
            (compare_by js_lt (query.sortBy rq)
               (negb (String.eqb (query.sortOrder rq) "desc")))
            found)
  /\ shown ≡ₚ found.
Proof.
  unfold listing_order. destruct (String.eqb (query.sortBy rq) "").
  - by intros [= <-].
  - intros ->%sort_by_returns. split; [done | apply array_sort_perm].
Qed.

Lemma listing_order_sortable (js_lt : value -> value -> bool) (rq : query.t)
    (found : list obj) :
  String.eqb (query.sortBy rq) "" || sortable (query.sortBy rq) found = true ->
  exists shown, listing_order js_lt rq found = Ok shown.
Proof.
  unfold listing_order. destruct (String.eqb (query.sortBy rq) "").
  - eauto.
  - cbn [orb]. intros H. rewrite (sort_by_sortable _ _ _ _ H). eauto.
Qed.




(** X22: a listing without search text and without date bounds counts and
    pages through every stored event, whatever [category], [status] and
    [organizer] the request asks for: these filters reach [Event.find],
    which drops them.  Provided the sort fields of the stored events
    convert to primitives and [<] compares them consistently, the page is
    cut from all the stored events, in the order of their sort fields
    (in store order when [sortBy] is empty), each with its organizer
    replaced by an object holding the name. *)
Theorem plain_listing_shows_every_event
    (js_lt : value -> value -> bool) (rq : query.t) (w : world) :
  plain rq = true ->
  sortable (query.sortBy rq) (events w) = true ->
  consistent_on js_lt (query.sortBy rq) (events w) ->
  let skip := (query.page rq - 1) * query.limit rq in
  exists shown listed pages w',
    listEvents js_lt rq w = (Ok (ListReply 200 listed pages), w') /\
    totalEvents pages = length (events w) /\
    shown ≡ₚ events w /\
    (if String.eqb (query.sortBy rq) "" then shown = events w
     else in_order js_lt (query.sortBy rq)
            (negb (String.eqb (query.sortOrder rq) "desc")) shown) /\
    Forall2 names_organizer (slice skip (skip + query.limit rq) shown)
      listed.
Proof.
  intros Hplain Hsortable Hconsistent skip.
  destruct (listEvents_runs js_lt rq w) as (found & _ & Hall & Hrun).
  rewrite (Hall Hplain) in Hrun.
  destruct (listing_order_sortable js_lt rq (events w)) as [shown Hshown];
    [by rewrite Hsortable, orb_true_r|].
  rewrite Hshown in Hrun. destruct Hrun as (listed & w' & Hrun & Hnames & _).
  destruct (listing_order_returns _ _ _ _ Hshown) as [Horder Hperm].
  eexists shown, listed, _, w'. split; [exact Hrun|]. cbn [totalEvents].
  split; [by apply Permutation_length|]. split; [exact Hperm|].
  split; [|exact Hnames].
  destruct (String.eqb (query.sortBy rq) ""); [done|]. subst shown.
  apply (array_sort_in_order _ _ _ (events w)); [exact Hconsistent|].
  by apply Forall_forall.
Qed.

Lemma date_lt_consistent :
  consistent_on date_lt "date" (events seeded).
Proof.
  assert (map (operand "date") (events seeded)
            = [VDate 1%nat 1700604800000; VDate 5%nat 1701209600004])
    as Hfields by (vm_compute; reflexivity).
  unfold consistent_on. cbv zeta. rewrite Hfields. split.
  - intros a b Ha Hb. apply list_elem_of_In in Ha, Hb.
    destruct Ha as [<- | [<- | []]], Hb as [<- | [<- | []]];
      vm_compute; congruence.
  - intros a b c Ha Hb Hc. apply list_elem_of_In in Ha, Hb, Hc.
    destruct Ha as [<- | [<- | []]], Hb as [<- | [<- | []]],
      Hc as [<- | [<- | []]]; vm_compute; auto.
Qed.

Lemma plain_listing_shows_every_event_witness :
  exists listed pages w',
    listEvents date_lt pending_music seeded
      = (Ok (ListReply 200 listed pages), w') /\
    totalEvents pages = length (events seeded).
Proof.
  destruct (plain_listing_shows_every_event date_lt pending_music seeded
              eq_refl)
    as (shown & listed & pages & w' & Hrun & Htotal & _).
  - vm_compute. reflexivity.
  - exact date_lt_consistent.
  - exists listed, pages, w'. split; [exact Hrun | exact Htotal].
Defined.

(** X23: [listEvents] sorts in place.  Whatever the listing, the store
    holds the same events afterwards, and the other collections are as
    they were.  A listing with search text or date bounds, or without a
    sort field, leaves the store as it was, and so does one whose sort
    throws because a sort field does not convert to a primitive; any other
    listing leaves the events rearranged: in the order of their sort
    fields, provided [<] compares these consistently. *)
Theorem listing_reorders_the_store
    (js_lt : value -> value -> bool) (rq : query.t) (w : world) :
  is_Some (memoryDb w !! "events") ->
  let w' := snd (listEvents js_lt rq w) in
  let asc := negb (String.eqb (query.sortOrder rq) "desc") in
  events w' ≡ₚ events w /\
  (forall other, other <> "events" ->
     memoryDb w' !! other = memoryDb w !! other) /\
  (plain rq && negb (String.eqb (query.sortBy rq) "") = false ->
   memoryDb w' = memoryDb w) /\
  ((2 <= length (events w))%nat ->
   sortable (query.sortBy rq) (events w) = false ->
   memoryDb w' = memoryDb w) /\
  (plain rq && negb (String.eqb (query.sortBy rq) "") = true ->
   sortable (query.sortBy rq) (events w) = true ->
   consistent_on js_lt (query.sortBy rq) (events w) ->
   in_order js_lt (query.sortBy rq) asc (events w')).
Proof.
  intros Hstored w' asc.
  destruct (listEvents_runs js_lt rq w) as (found & _ & Hall & Hrun).
  rewrite bool_decide_true in Hrun by done.
  destruct (plain rq && negb (String.eqb (query.sortBy rq) "")) eqn:Hcase.
  - apply andb_true_iff in Hcase as [Hplain Hsort].
    rewrite (Hall Hplain) in Hrun. rewrite Hplain, Hsort in Hrun.
    cbn [andb] in Hrun.
    destruct (listing_order js_lt rq (events w)) as [shown|e] eqn:Hshown.
    + destruct Hrun as (listed & w1 & Hrun & _ & Hdb).
      assert (memoryDb w' = <["events" := shown]> (memoryDb w)) as Hdb'
        by (unfold w'; by rewrite Hrun).
      destruct (listing_order_returns _ _ _ _ Hshown) as [Horder Hperm].
      assert (events w' = shown) as Hev
        by (unfold events; by rewrite Hdb', lookup_insert_eq).
      rewrite Hev. split; [exact Hperm|].
      split; [intros other Hne; rewrite Hdb'; by apply lookup_insert_ne|].
      split; [done|]. split.
      { intros Hmany Hunsortable. exfalso. revert Hshown.
        unfold listing_order. apply negb_true_iff in Hsort. rewrite Hsort.
        by rewrite sort_by_throws. }
      intros _ _ Hconsistent.
      destruct (String.eqb (query.sortBy rq) ""); [done|]. subst shown.
      apply (array_sort_in_order _ _ _ (events w)); [exact Hconsistent|].
      by apply Forall_forall.
    + destruct Hrun as (w1 & Hrun & Hdb).
      assert (memoryDb w' = memoryDb w) as Hdb'
        by (unfold w'; by rewrite Hrun).
      assert (events w' = events w) as Hev
        by (unfold events; by rewrite Hdb').
      rewrite Hev. split; [done|]. split; [by rewrite Hdb'|].
      split; [done|]. split; [done|].
      intros _ Hsortable _.
      destruct (listing_order_sortable js_lt rq (events w)) as [shown Hok];
        [by rewrite Hsortable, orb_true_r|].
      congruence.
  - assert (memoryDb w' = memoryDb w) as Hdb'.
    { unfold w'. destruct (listing_order js_lt rq found) as [shown|e].
      - destruct Hrun as (listed & w1 & -> & _ & Hdb). cbn [snd].
        rewrite Hdb. rewrite andb_true_r, andb_comm, Hcase. done.
      - by destruct Hrun as (w1 & -> & Hdb). }
    assert (events w' = events w) as Hev
      by (unfold events; by rewrite Hdb').
    rewrite Hev. split; [done|]. split; [by rewrite Hdb'|].
    split; [done|]. split; [done|]. done.
Qed.

Lemma listing_reorders_the_store_witness :
  events (snd (listEvents date_lt pending_music seeded))
  ≡ₚ events seeded.
Proof.
  assert (is_Some (memoryDb seeded !! "events")) as Hstored
    by (vm_compute; eauto).
  exact (proj1 (listing_reorders_the_store date_lt pending_music seeded
                  Hstored)).
Defined.

(** X25: a listing without search text and without date bounds, sorted by
    a field that in one of at least two stored events does not convert to
    a primitive - an object with an own [toString], say -, answers 500:
    the comparison throws inside [sort].  The store is left as it was. *)
Theorem unsortable_listing_fails
    (js_lt : value -> value -> bool) (rq : query.t) (w : world) :
  plain rq = true ->
  String.eqb (query.sortBy rq) "" = false ->
  (2 <= length (events w))%nat ->
  sortable (query.sortBy rq) (events w) = false ->
  exists text w',
    listEvents js_lt rq w = (Ok (MessageReply 500 text), w') /\
    memoryDb w' = memoryDb w.
Proof.
  intros Hplain Hsort Hmany Hunsortable.
  destruct (listEvents_runs js_lt rq w) as (found & _ & Hall & Hrun).
  rewrite (Hall Hplain) in Hrun. unfold listing_order in Hrun.
  rewrite Hsort, sort_by_throws in Hrun by done.
  destruct Hrun as (w' & Hrun & Hdb). by eexists _, w'.
Qed.

Lemma unsortable_listing_fails_witness :
  exists text w',
    listEvents date_lt pending_music seeded_with_undated
      = (Ok (MessageReply 500 text), w') /\
    memoryDb w' = memoryDb seeded_with_undated.
Proof.
  apply (unsortable_listing_fails date_lt pending_music seeded_with_undated).
  - reflexivity.
  - reflexivity.
  - vm_compute. lia.
  - vm_compute. reflexivity.
Defined.
